(** * Local Business Lead Finder: discovery, enrichment and export

    A shallow embedding of the reconciliation logic of the lead finder:
    - [services/geminiService.ts]: [findBusinessesStream] (the line parser of
      the streamed discovery answer), [researchBusiness], [geocodeAddress];
    - [services/placesService.ts]: [makePlacesRequest];
    - the [App] components: [onDiscovery] (admission and dedupe),
      [processResearchAndGeocoding] (merge-back of enrichment),
      [handleSearch], [handleRetryResearch] and [exportToCsv].

    JS strings are modelled as [string] (one [ascii] per code unit); the
    React state [businesses] is an explicit [list Business] threaded through
    the updater functions passed to [setBusinesses]. *)

From Stdlib Require Import String Ascii List Bool Arith Lia NArith ZArith.
From Stdlib Require Import Decimal DecimalString.
Import ListNotations.

Local Open Scope list_scope.

(* ------------------------------------------------------------------ *)
(** ** String primitives of JS used by the code *)

Module JS.

(** Characters removed by [String.prototype.trim] that exist in the
    one-byte model: TAB, LF, VT, FF, CR, SPACE and NBSP. *)
Definition is_ws (c : ascii) : bool :=
  let n := nat_of_ascii c in
  ((9 <=? n) && (n <=? 13)) || (n =? 32) || (n =? 160).

Fixpoint trim_start (s : string) : string :=
  match s with
  | EmptyString => EmptyString
  | String c r => if is_ws c then trim_start r else s
  end.

Fixpoint trim_end (s : string) : string :=
  match s with
  | EmptyString => EmptyString
  | String c r =>
      let r' := trim_end r in
      if is_ws c && String.eqb r' EmptyString then EmptyString else String c r'
  end.

(** [s.trim()] *)
Definition trim (s : string) : string := trim_end (trim_start s).

(** [s.includes(c)] for a one-character needle. *)
Fixpoint includes (c : ascii) (s : string) : bool :=
  match s with
  | EmptyString => false
  | String d r => Ascii.eqb c d || includes c r
  end.

(** [s.split(c)] for a one-character separator: ["a|b"] gives
    [["a"; "b"]], [""] gives [[""]]. *)
Fixpoint split (c : ascii) (s : string) : list string :=
  match s with
  | EmptyString => [EmptyString]
  | String d r =>
      if Ascii.eqb c d then EmptyString :: split c r
      else match split c r with
           | [] => [String d EmptyString]
           | p :: ps => String d p :: ps
           end
  end.

(** [s.startsWith(p)] *)
Definition startsWith (p s : string) : bool := String.prefix p s.

(** JS truthiness of a string: non-empty. *)
Definition truthy (s : string) : bool := negb (String.eqb s EmptyString).

End JS.

Definition newline : ascii := "010"%char.
Definition pipe : ascii := "|"%char.

(* ------------------------------------------------------------------ *)
(** ** [findBusinessesStream] (geminiService.ts) *)

(** [BusinessDiscovery] of types.ts *)
Record BusinessDiscovery := mkDiscovery {
  d_name : string;
  d_website : string;
}.

(** The body shared by the in-loop and the final handling of a line:
    [if (line.includes('|')) { const parts = line.split('|');
     if (parts.length >= 2) { name = parts[0].trim(); website = parts[1].trim();
     if (name && website && website.startsWith('http')) onDiscovery(...) } }].
    The list holds the discoveries passed to [onDiscovery] (zero or one). *)
Definition parse_line (line : string) : list BusinessDiscovery :=
  if JS.includes pipe line then
    let parts := JS.split pipe line in
    if 2 <=? length parts then
      match parts with
      | p0 :: p1 :: _ =>
          let name := JS.trim p0 in
          let website := JS.trim p1 in
          if JS.truthy name && JS.truthy website && JS.startsWith "http" website
          then [mkDiscovery name website] else []
      | _ => []
      end
    else []
  else [].

(** [newlineIndex = buffer.indexOf('\n')] followed by
    [buffer.substring(0, newlineIndex)] and [buffer.substring(newlineIndex + 1)]:
    [None] when there is no newline, otherwise the text before the first
    newline and the text after it. *)
Fixpoint break_nl (buffer : string) : option (string * string) :=
  match buffer with
  | EmptyString => None
  | String c r =>
      if Ascii.eqb c newline then Some (EmptyString, r)
      else match break_nl r with
           | None => None
           | Some (before, after) => Some (String c before, after)
           end
  end.

(** The inner [while ((newlineIndex = buffer.indexOf('\n')) !== -1)] loop:
    returns the discoveries emitted and the buffer left behind.  The loop
    strictly shortens the buffer, so [S (length buffer)] rounds suffice. *)
Fixpoint drain (fuel : nat) (buffer : string) : list BusinessDiscovery * string :=
  match fuel with
  | O => ([], buffer)
  | S f =>
      match break_nl buffer with
      | None => ([], buffer)
      | Some (before, after) =>
          let line := JS.trim before in
          let '(ds, rest) := drain f after in
          (parse_line line ++ ds, rest)
      end
  end.

(** One iteration of [for await (const chunk of responseStream)]:
    [buffer += chunk.text] then the inner loop. *)
Definition on_chunk (buffer chunk : string) : list BusinessDiscovery * string :=
  let buffer' := (buffer ++ chunk)%string in
  drain (S (String.length buffer')) buffer'.

Fixpoint stream_chunks (chunks : list string) (buffer : string)
  : list BusinessDiscovery * string :=
  match chunks with
  | [] => ([], buffer)
  | c :: cs =>
      let '(d1, b1) := on_chunk buffer c in
      let '(d2, b2) := stream_chunks cs b1 in
      (d1 ++ d2, b2)
  end.

(** After the stream ends: [if (buffer.trim().includes('|'))] with
    [line = buffer.trim()]. *)
Definition flush (buffer : string) : list BusinessDiscovery :=
  parse_line (JS.trim buffer).

(** The sequence of [onDiscovery] calls of a stream that ends normally. *)
Definition stream_emits (chunks : list string) : list BusinessDiscovery :=
  let '(ds, buffer) := stream_chunks chunks EmptyString in
  ds ++ flush buffer.

(** The lines of a text as the parser cuts them: the complete lines (each
    terminated by a newline) and the trailing partial line.  Used to state
    what the chunk loop computes independently of the chunk boundaries. *)
Fixpoint split_nl (s : string) : list string * string :=
  match s with
  | EmptyString => ([], EmptyString)
  | String c r =>
      let '(ls, t) := split_nl r in
      if Ascii.eqb c newline then (EmptyString :: ls, t)
      else match ls with
           | [] => ([], String c t)
           | l :: ls' => (String c l :: ls', t)
           end
  end.

(** The three-line sample answer of the discovery stream. *)
Definition sample_text : string :=
  ("Acme Cafe | https://acme.test" ++ String newline "Not A Line" ++
   String newline "Beta Bar | https://beta.test")%string.

(* ------------------------------------------------------------------ *)
(** ** Data model (types.ts) *)

Inductive BusinessStatus := DISCOVERED | EMAILED | REPLIED.

(** The string values of the [BusinessStatus] enum. *)
Definition status_value (s : BusinessStatus) : string :=
  match s with
  | DISCOVERED => "Discovered"
  | EMAILED => "Emailed"
  | REPLIED => "Replied"
  end.

(** Coordinates are only copied around by the code, never computed on;
    they are kept as an opaque pair of integers. *)
Definition Coords := (Z * Z)%type.

(** [Business] of types.ts, with the optional [lat]/[lng] that the map
    versions of [App] spread into a record. *)
Record Business := mkBusiness {
  id : string;
  discoveryName : string;
  discoveryWebsite : string;
  companyName : string;
  contactName : string;
  address : string;
  phone : string;
  email : string;
  description : string;
  status : BusinessStatus;
  dateFound : string;
  emailThreadId : string;
  isResearching : bool;
  areaSearched : string;
  businessType : string;
  lat : option Z;
  lng : option Z;
}.

(** [ResearchedBusinessData] of types.ts: the parsed JSON answer of the
    research call. *)
Record ResearchedBusinessData := mkResearched {
  r_companyName : string;
  r_contactName : string;
  r_address : string;
  r_phone : string;
  r_email : string;
  r_description : string;
}.

(* ------------------------------------------------------------------ *)
(** ** Errors and the store: a small state/error monad

    [Res] is the settled value of a promise: fulfilled ([Ok]) or rejected
    with a message ([Err]).  [M] threads the [businesses] state of [App]
    and may reject; [setBusinesses f] applies the updater [f]. *)

Inductive Res (A : Type) : Type :=
| Ok (a : A)
| Err (msg : string).
Arguments Ok {A} a.
Arguments Err {A} msg.

Definition Store := list Business.

Definition M (A : Type) := Store -> Res A * Store.

Definition ret {A} (a : A) : M A := fun s => (Ok a, s).

Definition bind {A B} (m : M A) (k : A -> M B) : M B :=
  fun s => match m s with
           | (Ok a, s') => k a s'
           | (Err e, s') => (Err e, s')
           end.

Notation "x <- m ;; k" := (bind m (fun x => k))
  (at level 61, m at next level, right associativity).
Notation "m ;;; k" := (bind m (fun _ => k))
  (at level 61, right associativity).

Definition throw {A} (msg : string) : M A := fun s => (Err msg, s).

(** [try { m } catch (e) { h(e) }] *)
Definition try_catch {A} (m : M A) (h : string -> M A) : M A :=
  fun s => match m s with
           | (Ok a, s') => (Ok a, s')
           | (Err e, s') => h e s'
           end.

Definition setBusinesses (f : Store -> Store) : M unit :=
  fun s => (Ok tt, f s).

(** [prev.map(b => b.id === bid ? f(b) : b)], the shape of every
    merge-by-id updater of the [App] components. *)
Definition update_by_id (bid : string) (f : Business -> Business) (prev : Store) : Store :=
  map (fun b => if String.eqb b.(id) bid then f b else b) prev.

(* ------------------------------------------------------------------ *)
(** ** Record updates written by the code *)

(** [{ ...b, ...researchedData, ...coords, isResearching: false }]; with
    [coords] undefined the spread adds nothing. *)
Definition merge_research (b : Business) (d : ResearchedBusinessData)
  (coords : option Coords) : Business :=
  {| id := b.(id);
     discoveryName := b.(discoveryName);
     discoveryWebsite := b.(discoveryWebsite);
     companyName := d.(r_companyName);
     contactName := d.(r_contactName);
     address := d.(r_address);
     phone := d.(r_phone);
     email := d.(r_email);
     description := d.(r_description);
     status := b.(status);
     dateFound := b.(dateFound);
     emailThreadId := b.(emailThreadId);
     isResearching := false;
     areaSearched := b.(areaSearched);
     businessType := b.(businessType);
     lat := match coords with Some (la, _) => Some la | None => b.(lat) end;
     lng := match coords with Some (_, ln) => Some ln | None => b.(lng) end |}.

(** [{ ...b, description: msg, isResearching: false }] *)
Definition mark_failed (msg : string) (b : Business) : Business :=
  {| id := b.(id);
     discoveryName := b.(discoveryName);
     discoveryWebsite := b.(discoveryWebsite);
     companyName := b.(companyName);
     contactName := b.(contactName);
     address := b.(address);
     phone := b.(phone);
     email := b.(email);
     description := msg;
     status := b.(status);
     dateFound := b.(dateFound);
     emailThreadId := b.(emailThreadId);
     isResearching := false;
     areaSearched := b.(areaSearched);
     businessType := b.(businessType);
     lat := b.(lat);
     lng := b.(lng) |}.

(** [{ ...b, isResearching: true }] *)
Definition mark_researching (b : Business) : Business :=
  {| id := b.(id);
     discoveryName := b.(discoveryName);
     discoveryWebsite := b.(discoveryWebsite);
     companyName := b.(companyName);
     contactName := b.(contactName);
     address := b.(address);
     phone := b.(phone);
     email := b.(email);
     description := b.(description);
     status := b.(status);
     dateFound := b.(dateFound);
     emailThreadId := b.(emailThreadId);
     isResearching := true;
     areaSearched := b.(areaSearched);
     businessType := b.(businessType);
     lat := b.(lat);
     lng := b.(lng) |}.

(** [{ ...b, ...researchedData, isResearching: false, dateFound: today }]
    (the success branch of the retry of the stream-only [App]). *)
Definition merge_retry (today : string) (b : Business) (d : ResearchedBusinessData) : Business :=
  let m := merge_research b d None in
  {| id := m.(id);
     discoveryName := m.(discoveryName);
     discoveryWebsite := m.(discoveryWebsite);
     companyName := m.(companyName);
     contactName := m.(contactName);
     address := m.(address);
     phone := m.(phone);
     email := m.(email);
     description := m.(description);
     status := m.(status);
     dateFound := today;
     emailThreadId := m.(emailThreadId);
     isResearching := false;
     areaSearched := m.(areaSearched);
     businessType := m.(businessType);
     lat := m.(lat);
     lng := m.(lng) |}.

(* ------------------------------------------------------------------ *)
(** ** Services (geminiService.ts) *)

(** The double quote character. *)
Definition dq : ascii := "034"%char.

(** [researchBusiness(name, website)]: [answer] is the outcome of
    [ai.models.generateContent] followed by [JSON.parse]; any rejection is
    caught and rethrown as [Failed to research business <dq>name<dq>.] *)
Definition researchBusiness (businessName businessWebsite : string)
  (answer : Res ResearchedBusinessData) : M ResearchedBusinessData :=
  try_catch
    (match answer with Ok d => ret d | Err e => throw e end)
    (fun _ => throw ("Failed to research business " ++
                     String dq (businessName ++ String dq "."))%string).

(** The JSON reply of the geocoding endpoint: [status] and the locations
    of [results]. *)
Record GeocodeReply := mkGeocodeReply {
  g_status : string;
  g_results : list Coords;
}.

(** [geocodeAddress(address)] with [process.env.GOOGLE_MAPS_API_KEY] given
    as [apiKey] ([None] when undefined) and [answer] the outcome of the
    [fetch] and [response.json()].  Every path resolves. *)
Definition geocodeAddress (apiKey : option string) (address : string)
  (answer : Res GeocodeReply) : M (option Coords) :=
  match apiKey with
  | Some k =>
      if JS.truthy k then
        try_catch
          (match answer with
           | Ok data =>
               if String.eqb data.(g_status) "OK" then
                 match data.(g_results) with
                 | loc :: _ => ret (Some loc)
                 | [] => ret None
                 end
               else ret None
           | Err e => throw e
           end)
          (fun _ => ret None)
      else ret None
  | None => ret None
  end.

(* ------------------------------------------------------------------ *)
(** ** Enrichment and its merge-back (the [App] components) *)

(** The answers of the external services to one enrichment. *)
Record EnrichAnswers := mkEnrichAnswers {
  research_answer : Res ResearchedBusinessData;
  geocode_answer : Res GeocodeReply;
}.

(** [processResearchAndGeocoding(business)] of the map [App]. *)
Definition processResearchAndGeocoding (mapsKey : option string)
  (business : Business) (ans : EnrichAnswers) : M unit :=
  try_catch
    (researchedData <- researchBusiness business.(discoveryName)
                         business.(discoveryWebsite) ans.(research_answer) ;;
     coords <- (if JS.truthy researchedData.(r_address) &&
                   negb (String.eqb researchedData.(r_address) "Not Found")
                then geocodeAddress mapsKey researchedData.(r_address) ans.(geocode_answer)
                else ret None) ;;
     setBusinesses (update_by_id business.(id)
                      (fun b => merge_research b researchedData coords)))
    (fun _ => setBusinesses (update_by_id business.(id) (mark_failed "Research failed."))).

(** The [researchBusiness(...).then(...).catch(...)] chain started by
    [onDiscovery] in the stream-only [App]. *)
Definition research_chain (newBusiness : Business)
  (answer : Res ResearchedBusinessData) : M unit :=
  try_catch
    (researchedData <- researchBusiness newBusiness.(discoveryName)
                         newBusiness.(discoveryWebsite) answer ;;
     setBusinesses (update_by_id newBusiness.(id)
                      (fun b => merge_research b researchedData None)))
    (fun _ => setBusinesses (update_by_id newBusiness.(id) (mark_failed "Research failed."))).

(** [businesses.find(b => b.id === businessId)] *)
Definition find_by_id (businessId : string) (businesses : Store) : option Business :=
  find (fun b => String.eqb b.(id) businessId) businesses.

(** [handleRetryResearch(businessId)] of the stream-only [App]: the first
    [setBusinesses] marks the record as researching, the outcome of the
    research call is then merged (with [dateFound] set to [today]) or
    recorded as [Research failed again.].  [businesses] is the closure's
    snapshot of the state. *)
Definition retry_start (businessId : string) : M unit :=
  setBusinesses (update_by_id businessId mark_researching).

Definition retry_finish (today businessId : string) (businessToRetry : Business)
  (answer : Res ResearchedBusinessData) : M unit :=
  try_catch
    (researchedData <- researchBusiness businessToRetry.(discoveryName)
                         businessToRetry.(discoveryWebsite) answer ;;
     setBusinesses (update_by_id businessId
                      (fun b => merge_retry today b researchedData)))
    (fun _ => setBusinesses (update_by_id businessId
                               (mark_failed "Research failed again."))).

Definition handleRetryResearch (today : string) (businesses : Store)
  (businessId : string) (answer : Res ResearchedBusinessData) : M unit :=
  match find_by_id businessId businesses with
  | None => ret tt
  | Some businessToRetry =>
      retry_start businessId ;;;
      retry_finish today businessId businessToRetry answer
  end.

(** [handleRetryResearch(businessId)] of the map [App]: marks the record
    as researching and reruns [processResearchAndGeocoding]. *)
Definition handleRetryResearch_map (mapsKey : option string) (today : string)
  (businesses : Store) (businessId : string) (ans : EnrichAnswers) : M unit :=
  match find_by_id businessId businesses with
  | None => ret tt
  | Some businessToRetry =>
      retry_start businessId ;;;
      processResearchAndGeocoding mapsKey
        {| id := businessToRetry.(id);
           discoveryName := businessToRetry.(discoveryName);
           discoveryWebsite := businessToRetry.(discoveryWebsite);
           companyName := businessToRetry.(companyName);
           contactName := businessToRetry.(contactName);
           address := businessToRetry.(address);
           phone := businessToRetry.(phone);
           email := businessToRetry.(email);
           description := businessToRetry.(description);
           status := businessToRetry.(status);
           dateFound := today;
           emailThreadId := businessToRetry.(emailThreadId);
           isResearching := businessToRetry.(isResearching);
           areaSearched := businessToRetry.(areaSearched);
           businessType := businessToRetry.(businessType);
           lat := businessToRetry.(lat);
           lng := businessToRetry.(lng) |} ans
  end.

(* ------------------------------------------------------------------ *)
(** ** Discovery: admission and [handleSearch] *)

(** [`${Date.now()}-${discovery.website}`] *)
Definition make_id (now : N) (website : string) : string :=
  (NilEmpty.string_of_uint (N.to_uint now) ++ "-" ++ website)%string.

(** The updater passed to [setBusinesses] by [onDiscovery] (stream
    [App]s).  [seen] is [discoveredWebsitesThisRun]; [now] the value of
    [Date.now()] and [today] the date string of the call.  Starting the
    enrichment of the new record is asynchronous and not part of the
    updater's result. *)
Definition onDiscovery (location businessType today : string) (now : N)
  (seen : list string) (discovery : BusinessDiscovery) (currentBusinesses : Store)
  : list string * Store :=
  let w := discovery.(d_website) in
  let alreadyExists :=
    existsb (fun b => String.eqb b.(discoveryWebsite) w) currentBusinesses
    || existsb (String.eqb w) seen in
  if negb (JS.truthy w) || alreadyExists then (seen, currentBusinesses)
  else
    let newBusiness :=
      {| id := make_id now w;
         discoveryName := discovery.(d_name);
         discoveryWebsite := w;
         companyName := ""; contactName := ""; address := "";
         phone := ""; email := ""; description := "";
         status := DISCOVERED;
         dateFound := today;
         emailThreadId := "N/A";
         isResearching := true;
         areaSearched := location;
         businessType := businessType;
         lat := None; lng := None |} in
    (w :: seen, currentBusinesses ++ [newBusiness]).

(** State seen by the discovery callback: the number of calls so far
    (which selects the [Date.now()] value from [clock]), the set of
    websites of this run, and the store. *)
Record DiscoveryState := mkDiscoveryState {
  ds_calls : nat;
  ds_seen : list string;
  ds_store : Store;
}.

Definition on_discovery_step (location businessType today : string)
  (clock : nat -> N) (discovery : BusinessDiscovery) (st : DiscoveryState)
  : DiscoveryState :=
  let '(seen', store') :=
    onDiscovery location businessType today (clock st.(ds_calls)) st.(ds_seen)
      discovery st.(ds_store) in
  mkDiscoveryState (S st.(ds_calls)) seen' store'.

(** The streamed answer of [generateContentStream]: the chunks delivered,
    and whether the transport fails after them (a rejected query is a
    failure with no chunk). *)
Record StreamResponse := mkStreamResponse {
  resp_chunks : list string;
  resp_fails : bool;
}.

Definition stream_error_msg : string :=
  "Failed to find businesses using Gemini API stream.".

(** [findBusinessesStream(..., onDiscovery)] with a callback acting on a
    state [S]: the callback runs once per emitted discovery, in order; on a
    transport failure the loop is left by the exception, so the trailing
    buffer is not flushed, and the error is rethrown. *)
Definition findBusinessesStream {S : Type} (onDisc : BusinessDiscovery -> S -> S)
  (resp : StreamResponse) (s : S) : Res unit * S :=
  let run ds := fold_left (fun acc d => onDisc d acc) ds s in
  if resp.(resp_fails) then
    (Err stream_error_msg, run (fst (stream_chunks resp.(resp_chunks) EmptyString)))
  else (Ok tt, run (stream_emits resp.(resp_chunks))).

Record AppState := mkAppState {
  businesses : Store;
  isLoading : bool;
  researchMessage : string;
  error : option string;
}.

Definition discovery_error_msg : string :=
  "An error occurred during discovery. Please check the console and try again.".

(** [handleSearch(location, businessType, numResults)] of the map [App]:
    [setIsLoading(true)], [setError(null)], the stream with [onDiscovery],
    then the [try]/[catch]/[finally]. *)
Definition handleSearch (location businessType today : string) (clock : nat -> N)
  (resp : StreamResponse) (st : AppState) : AppState :=
  let '(r, dst) :=
    findBusinessesStream (on_discovery_step location businessType today clock) resp
      (mkDiscoveryState 0 [] st.(businesses)) in
  match r with
  | Ok _ => mkAppState dst.(ds_store) false
              "Discovery stream complete. Research may still be in progress." None
  | Err _ => mkAppState dst.(ds_store) false "" (Some discovery_error_msg)
  end.

(** The updater of the Places [App]'s [handleSearch]:
    [existingIds = new Set(prev.map(b => b.id))] and
    [[...prev, ...newBusinesses.filter(b => !existingIds.has(b.id))]]. *)
Definition merge_batch (newBusinesses : Store) (prev : Store) : Store :=
  let existingIds := map id prev in
  prev ++ filter (fun b => negb (existsb (String.eqb b.(id)) existingIds)) newBusinesses.

(* ------------------------------------------------------------------ *)
(** ** CSV export *)

Local Open Scope string_scope.
Local Open Scope list_scope.

(** [cell.replace(/<dq>/g, <dq><dq>)]: every double quote doubled. *)
Fixpoint double_quotes (s : string) : string :=
  match s with
  | EmptyString => EmptyString
  | String c r =>
      if Ascii.eqb c dq then String dq (String dq (double_quotes r))
      else String c (double_quotes r)
  end.

(** [escapeCsvCell] of the map and Places [App]s: the cell (the empty
    string when it is falsy) with its double quotes doubled, between two
    double quotes. *)
Definition escapeCsvCell (cell : string) : string :=
  String dq ((if JS.truthy cell then double_quotes cell else EmptyString)
             ++ String dq EmptyString)%string.

(** [escapeCsvCell] of the stream-only [App]: the same without the
    truthiness test. *)
Definition escapeCsvCell_stream (cell : string) : string :=
  String dq (double_quotes cell ++ String dq EmptyString)%string.

Definition crlf : string := String "013"%char (String newline EmptyString).

(** [rowArray.map(escape).join(',') + '\r\n'] *)
Definition csv_line (escape : string -> string) (cells : list string) : string :=
  (String.concat "," (map escape cells) ++ crlf)%string.

Definition csv_prefix : string := "data:text/csv;charset=utf-8,".

Definition csv_content (escape : string -> string) (headers : list string)
  (rows : list (list string)) : string :=
  (csv_prefix ++ csv_line escape headers ++ String.concat "" (map (csv_line escape) rows))%string.

(** [exportToCsv] of the map [App] (the Places [App] has the same headers,
    rows and escaping).  [None] is the early return on an empty store; the
    content is the text before [encodeURI]. *)
Definition exportToCsv (businesses : Store) : option string :=
  match businesses with
  | [] => None
  | _ =>
      let headers : list string := ["Company Name"; "Contact Name"; "Address"; "Phone"; "Email";
                      "Website"; "Description"; "Status"; "Date Found/Updated";
                      "Email Thread ID"; "Area Searched"; "Business Type"] in
      let rows := map (fun b => [b.(companyName); b.(contactName); b.(address);
                                 b.(phone); b.(email); b.(discoveryWebsite);
                                 b.(description); status_value b.(status);
                                 b.(dateFound); b.(emailThreadId);
                                 b.(areaSearched); b.(businessType)]) businesses in
      Some (csv_content escapeCsvCell headers rows)
  end.

(** [exportToCsv] of the stream-only [App]. *)
Definition exportToCsv_stream (businesses : Store) : option string :=
  match businesses with
  | [] => None
  | _ =>
      let headers : list string := ["Company Name"; "Contact Name"; "Address"; "Phone"; "Email";
                      "Description"; "Website"; "Status"; "Date Found/Updated";
                      "Email Thread ID"; "Area Searched"; "Business Type"] in
      let rows := map (fun b => [b.(companyName); b.(contactName); b.(address);
                                 b.(phone); b.(email); b.(description);
                                 b.(discoveryWebsite); status_value b.(status);
                                 b.(dateFound); b.(emailThreadId);
                                 b.(areaSearched); b.(businessType)]) businesses in
      Some (csv_content escapeCsvCell_stream headers rows)
  end.

(* ------------------------------------------------------------------ *)
(** ** Reading the exported text back, and the columns the spec lists *)

(** Standard CSV reading of one quoted cell, after its opening quote: a
    doubled quote stands for one quote, a single quote closes the cell,
    which must then be over. *)
Fixpoint unquote_body (s : string) : option string :=
  match s with
  | EmptyString => None
  | String c r =>
      if Ascii.eqb c dq then
        match r with
        | EmptyString => Some EmptyString
        | String c2 r2 =>
            if Ascii.eqb c2 dq then option_map (String dq) (unquote_body r2)
            else None
        end
      else option_map (String c) (unquote_body r)
  end.

(** A cell is quoted when it starts with a double quote; otherwise it is
    read as it stands. *)
Definition parse_csv_cell (cell : string) : option string :=
  match cell with
  | String c r => if Ascii.eqb c dq then unquote_body r else Some cell
  | EmptyString => Some EmptyString
  end.

(** The export columns as the spec lists them: header and the field of the
    record shown under it. *)
Definition spec_columns : list (string * (Business -> string)) :=
  [("Company Name", companyName); ("Contact Name", contactName);
   ("Address", address); ("Phone", phone); ("Email", email);
   ("Website", discoveryWebsite); ("Description", description);
   ("Status", fun b => status_value b.(status));
   ("Date Found/Updated", dateFound); ("Email Thread ID", emailThreadId);
   ("Area Searched", areaSearched); ("Business Type", businessType)].

(** The same columns with Website and Description swapped. *)
Definition stream_columns : list (string * (Business -> string)) :=
  [("Company Name", companyName); ("Contact Name", contactName);
   ("Address", address); ("Phone", phone); ("Email", email);
   ("Description", description); ("Website", discoveryWebsite);
   ("Status", fun b => status_value b.(status));
   ("Date Found/Updated", dateFound); ("Email Thread ID", emailThreadId);
   ("Area Searched", areaSearched); ("Business Type", businessType)].

Definition csv_of_columns (escape : string -> string)
  (cols : list (string * (Business -> string))) (bs : Store) : string :=
  csv_content escape (map fst cols) (map (fun b => map (fun c => snd c b) cols) bs).

(* ------------------------------------------------------------------ *)
(** ** Views of the store used in the statements *)

Definition websites (s : Store) : list string := map discoveryWebsite s.
Definition ids (s : Store) : list string := map id s.

(** Every record carries an id built by [onDiscovery] from its website. *)
Definition stream_ids (s : Store) : Prop :=
  Forall (fun b => exists t, b.(id) = make_id t b.(discoveryWebsite)) s.

(** All fields but [description] and [isResearching]. *)
Definition fields_but_description (b : Business) :=
  (b.(id), b.(discoveryName), b.(discoveryWebsite), b.(companyName),
   b.(contactName), b.(address), b.(phone), b.(email), b.(status),
   b.(dateFound), b.(emailThreadId), b.(areaSearched), b.(businessType),
   b.(lat), b.(lng)).

(** [s'] is [s] with at most the records of id [bid] changed: same length,
    same order, same ids. *)
Definition frames (bid : string) (s s' : Store) : Prop :=
  Forall2 (fun x x' => x'.(id) = x.(id) /\ (x.(id) <> bid -> x' = x)) s s'.

(** [s'] is [s] with the failure [msg] recorded on the records of id
    [bid]: no longer researching, description [msg], every other field
    kept; the other records are untouched. *)
Definition records_failure (bid msg : string) (s s' : Store) : Prop :=
  Forall2 (fun x x' =>
    (x.(id) = bid ->
       x'.(isResearching) = false /\ x'.(description) = msg /\
       fields_but_description x' = fields_but_description x) /\
    (x.(id) <> bid -> x' = x)) s s'.

(** [x'] is [x] after the merge of the research answer [d]. *)
Definition merged_from (d : ResearchedBusinessData) (x x' : Business) : Prop :=
  x'.(companyName) = d.(r_companyName) /\ x'.(contactName) = d.(r_contactName) /\
  x'.(address) = d.(r_address) /\ x'.(phone) = d.(r_phone) /\
  x'.(email) = d.(r_email) /\ x'.(description) = d.(r_description) /\
  x'.(isResearching) = false /\ x'.(id) = x.(id) /\
  x'.(discoveryName) = x.(discoveryName) /\
  x'.(discoveryWebsite) = x.(discoveryWebsite) /\ x'.(status) = x.(status) /\
  x'.(dateFound) = x.(dateFound) /\ x'.(emailThreadId) = x.(emailThreadId) /\
  x'.(areaSearched) = x.(areaSearched) /\ x'.(businessType) = x.(businessType).

(** Running the discovery callback of [handleSearch] over discoveries. *)
Definition admit_all (location businessType today : string) (clock : nat -> N)
  (ds : list BusinessDiscovery) (st : DiscoveryState) : DiscoveryState :=
  fold_left (fun acc d => on_discovery_step location businessType today clock d acc) ds st.

(** A record with enriched fields, used by the concrete runs below. *)
Definition sample_business : Business :=
  {| id := "1700000000000-https://acme.test";
     discoveryName := "Acme Cafe";
     discoveryWebsite := "https://acme.test";
     companyName := "Acme Cafe LLC";
     contactName := "Ann Lee";
     address := "1 Main St";
     phone := "555-1234";
     email := "ann@acme.test";
     description := "A neighbourhood cafe.";
     status := DISCOVERED;
     dateFound := "2024-05-01";
     emailThreadId := "N/A";
     isResearching := false;
     areaSearched := "Austin, TX";
     businessType := "Coffee Shops";
     lat := None; lng := None |}.

(* ------------------------------------------------------------------ *)
(** ** The Places service (placesService.ts) *)

(** [String.prototype.toLowerCase] on one-byte code units: the capitals
    A-Z and the Latin-1 capitals (192 to 222 but the multiplication sign
    215) move down to their small letters, 32 further. *)
Definition lower_char (c : ascii) : ascii :=
  let n := nat_of_ascii c in
  if (((65 <=? n) && (n <=? 90)) || ((192 <=? n) && (n <=? 222) && negb (n =? 215)))%nat
  then ascii_of_nat (n + 32) else c.

Fixpoint toLowerCase (s : string) : string :=
  match s with
  | EmptyString => EmptyString
  | String c r => String (lower_char c) (toLowerCase r)
  end.

(** [PLACE_TYPES] *)
Definition PLACE_TYPES : list (string * list string) :=
  [("coffee shop", ["cafe"]); ("coffee", ["cafe"]); ("cafe", ["cafe"]);
   ("restaurant", ["restaurant"]);
   ("food", ["restaurant"; "meal_takeaway"; "meal_delivery"]);
   ("gym", ["gym"]); ("fitness", ["gym"]); ("bar", ["bar"]); ("pub", ["bar"]);
   ("hotel", ["lodging"]); ("retail", ["store"]); ("shop", ["store"]);
   ("pharmacy", ["pharmacy"]); ("bank", ["bank"]);
   ("gas station", ["gas_station"]); ("hospital", ["hospital"]);
   ("clinic", ["hospital"]); ("school", ["school"]);
   ("university", ["university"]); ("library", ["library"]);
   ("park", ["park"]); ("museum", ["museum"]); ("theater", ["movie_theater"]);
   ("cinema", ["movie_theater"]); ("beauty salon", ["beauty_salon"]);
   ("hair salon", ["beauty_salon"]); ("salon", ["beauty_salon"]);
   ("salons", ["beauty_salon"]); ("spa", ["spa"]);
   ("car repair", ["car_repair"]); ("auto repair", ["car_repair"]);
   ("dentist", ["dentist"]); ("doctor", ["doctor"]); ("lawyer", ["lawyer"]);
   ("accountant", ["accountant"]); ("real estate", ["real_estate_agency"]);
   ("insurance", ["insurance_agency"]); ("bakery", ["bakery"]);
   ("book store", ["book_store"]); ("clothing store", ["clothing_store"]);
   ("electronics store", ["electronics_store"]);
   ("furniture store", ["furniture_store"]);
   ("hardware store", ["hardware_store"]); ("jewelry store", ["jewelry_store"]);
   ("shoe store", ["shoe_store"]);
   ("sporting goods store", ["sporting_goods_store"]);
   ("supermarket", ["supermarket"]); ("department store", ["department_store"]);
   ("convenience store", ["convenience_store"]); ("florist", ["florist"]);
   ("pet store", ["pet_store"]); ("toy store", ["toy_store"]);
   ("travel agency", ["travel_agency"]);
   ("veterinary care", ["veterinary_care"])].

(** What [PLACE_TYPES[normalized]] may hold: an array of the table, or,
    for the two lower-case names of [Object.prototype] members, the
    inherited [Object] function ([constructor]) or [Object.prototype]
    itself ([__proto__]). *)
Inductive TypesValue :=
| TypeList (l : list string)
| ObjectConstructor
| ObjectPrototype.

(** [PLACE_TYPES[key]]; [None] is [undefined]. *)
Definition lookup_place_types (key : string) : option TypesValue :=
  match find (fun e => String.eqb (fst e) key) PLACE_TYPES with
  | Some (_, l) => Some (TypeList l)
  | None =>
      if String.eqb key "constructor" then Some ObjectConstructor
      else if String.eqb key "__proto__" then Some ObjectPrototype
      else None
  end.

(** [businessType.toLowerCase().trim()] *)
Definition normalize_type (businessType : string) : string :=
  JS.trim (toLowerCase businessType).

(** [getPlaceTypes(businessType)]: every value the lookup can give is
    truthy, [undefined] falls back to [[]]. *)
Definition getPlaceTypes (businessType : string) : TypesValue :=
  match lookup_place_types (normalize_type businessType) with
  | Some mappedTypes => mappedTypes
  | None => TypeList []
  end.

(** [placeTypes.length]: [Object.length] is 1, [Object.prototype] has no
    [length] ([None], [undefined]). *)
Definition types_length (v : TypesValue) : option nat :=
  match v with
  | TypeList l => Some (length l)
  | ObjectConstructor => Some 1
  | ObjectPrototype => None
  end.

(** [placeTypes[0]] ([Object[0]] is [undefined]). *)
Definition first_type (v : TypesValue) : option string :=
  match v with
  | TypeList l => hd_error l
  | _ => None
  end.

(** How [JSON.stringify] writes [includedTypes: placeTypes]: an array, no
    property at all (a function value is skipped), or [{}]. *)
Inductive JsonTypes :=
| JArray (l : list string)
| JOmitted
| JEmptyObject.

Definition json_of_types (v : TypesValue) : JsonTypes :=
  match v with
  | TypeList l => JArray l
  | ObjectConstructor => JOmitted
  | ObjectPrototype => JEmptyObject
  end.

(** A JS number as these functions produce it: an integer, or [NaN]
    ([None]). *)
Definition num := option Z.

(** [Math.min(a, b)] *)
Definition math_min (a b : num) : num :=
  match a, b with
  | Some x, Some y => Some (Z.min x y)
  | _, _ => None
  end.

Record Circle := mkCircle {
  circle_center : Coords;
  circle_radius : Z;
}.

Record Rectangle := mkRectangle {
  rect_low : Coords;
  rect_high : Coords;
}.

Inductive AreaType := AreaCircle | AreaRectangle.

(** [SearchArea]: the [type] and the optional shapes. *)
Record SearchArea := mkSearchArea {
  sa_type : AreaType;
  sa_circle : option Circle;
  sa_rectangle : option Rectangle;
}.

(** The JSON body of a Nearby Search. *)
Record NearbyBody := mkNearbyBody {
  includedTypes : JsonTypes;
  nearby_circle : Circle;
  maxResultCount : num;
}.

(** The JSON body of a Text Search; [includedType] is [None] when the
    property is absent or [undefined], [strictTypeFiltering] is [false]
    when absent (the code only ever sets it to [true]). *)
Record TextBody := mkTextBody {
  textQuery : string;
  text_rectangle : Rectangle;
  pageSize : num;
  includedType : option string;
  strictTypeFiltering : bool;
}.

(** The POST of [makePlacesRequest]: [/places:searchNearby] or
    [/places:searchText] with its body. *)
Inductive PlacesRequest :=
| SearchNearby (body : NearbyBody)
| SearchText (body : TextBody).

(** [s] between double quotes. *)
Definition quoted (s : string) : string := String dq (s ++ String dq EmptyString)%string.

Definition unsupported_msg (businessType : string) : string :=
  ("Business type " ++ quoted businessType ++
   " is not supported. Please use a supported business type like " ++
   quoted "coffee shop" ++ ", " ++ quoted "restaurant" ++ ", " ++
   quoted "gym" ++ ", etc.")%string.

(** The part of [searchPlacesInArea] before the call: the error of a
    circle search with no place type, the request of each branch, and no
    request ([Ok None]) when the area lacks the shape its [type] names. *)
Definition search_request (businessType : string) (searchArea : SearchArea)
  (maxResults : num) : Res (option PlacesRequest) :=
  let placeTypes := getPlaceTypes businessType in
  match searchArea.(sa_type), searchArea.(sa_circle), searchArea.(sa_rectangle) with
  | AreaCircle, Some c, _ =>
      match types_length placeTypes with
      | Some 0 => Err (unsupported_msg businessType)
      | _ => Ok (Some (SearchNearby
                 (mkNearbyBody (json_of_types placeTypes) c
                    (math_min maxResults (Some 20%Z)))))
      end
  | AreaRectangle, _, Some r =>
      let typed := match types_length placeTypes with
                   | Some n => (0 <? n)%nat
                   | None => false
                   end in
      Ok (Some (SearchText
             (mkTextBody businessType r (math_min maxResults (Some 20%Z))
                (if typed then first_type placeTypes else None) typed)))
  | _, _, _ => Ok None
  end.

(** The outcome of a [fetch] and the reading of its body: a rejection, a
    response that is not ok (its status and text), or the parsed JSON. *)
Inductive Reply (J : Type) : Type :=
| Rejected (msg : string)
| NotOk (status : N) (text : string)
| OkJson (json : J).
Arguments Rejected {J} msg.
Arguments NotOk {J} status text.
Arguments OkJson {J} json.

(** [!API_KEY] for [process.env.GOOGLE_MAPS_API_KEY]. *)
Definition key_missing (apiKey : option string) : bool :=
  match apiKey with
  | Some k => negb (JS.truthy k)
  | None => true
  end.

Definition key_missing_msg : string := "Google Maps API key is not configured".

(** [makePlacesRequest(endpoint, body, fieldMask)] with [reply] the answer
    to the request. *)
Definition makePlacesRequest {J : Type} (apiKey : option string) (reply : Reply J) : M J :=
  if key_missing apiKey then throw key_missing_msg
  else match reply with
       | Rejected e => throw e
       | NotOk st text =>
           throw ("Places API error: " ++ NilEmpty.string_of_uint (N.to_uint st) ++
                  " - " ++ text)%string
       | OkJson j => ret j
       end.

(** [makePlaceDetailsRequest(placeId, fieldMask)] *)
Definition makePlaceDetailsRequest {J : Type} (apiKey : option string) (reply : Reply J) : M J :=
  if key_missing apiKey then throw key_missing_msg
  else match reply with
       | Rejected e => throw e
       | NotOk st text =>
           throw ("Place Details API error: " ++ NilEmpty.string_of_uint (N.to_uint st) ++
                  " - " ++ text)%string
       | OkJson j => ret j
       end.

(** A place of the [places] array of a search answer (field mask
    [id, displayName, location, primaryType, formattedAddress]);
    [displayName] is [displayName?.text]. *)
Record RawPlace := mkRawPlace {
  raw_id : string;
  raw_displayName : option string;
  raw_location : option Coords;
  raw_primaryType : option string;
  raw_formattedAddress : option string;
}.

(** [PlaceSearchResult]; the optional [rating], [userRatingCount] and
    [currentOpeningHours] are left out: the [App] only copies the first two
    into properties that nothing reads. *)
Record PlaceSearchResult := mkPlace {
  place_id : string;
  place_displayName : string;
  place_location : option Coords;
  place_primaryType : string;
  place_formattedAddress : option string;
  place_websiteUri : option string;
  place_nationalPhoneNumber : option string;
}.

(** [v || ''] for an optional string. *)
Definition or_empty (v : option string) : string :=
  match v with Some s => s | None => EmptyString end.

(** The mapping of each search answer place. *)
Definition place_of_raw (place : RawPlace) : PlaceSearchResult :=
  mkPlace place.(raw_id) (or_empty place.(raw_displayName)) place.(raw_location)
    (or_empty place.(raw_primaryType)) (Some (or_empty place.(raw_formattedAddress)))
    None None.

(** [searchPlacesInArea(businessType, searchArea, maxResults)]; [reply]
    answers each request ([None] when the answer has no [places]). *)
Definition searchPlacesInArea (apiKey : option string) (businessType : string)
  (searchArea : SearchArea) (maxResults : num)
  (reply : PlacesRequest -> Reply (option (list RawPlace))) : M (list PlaceSearchResult) :=
  match search_request businessType searchArea maxResults with
  | Err e => throw e
  | Ok None => ret []
  | Ok (Some req) =>
      response <- makePlacesRequest apiKey (reply req) ;;
      ret (match response with
           | Some places => map place_of_raw places
           | None => []
           end)
  end.

(** The details answer (the string fields of the field mask). *)
Record RawDetails := mkRawDetails {
  det_displayName : option string;
  det_location : option Coords;
  det_primaryType : option string;
  det_formattedAddress : option string;
  det_websiteUri : option string;
  det_nationalPhoneNumber : option string;
}.

(** [getPlaceDetails(placeId)] *)
Definition getPlaceDetails (apiKey : option string) (placeId : string)
  (reply : Reply RawDetails) : M PlaceSearchResult :=
  response <- makePlaceDetailsRequest apiKey reply ;;
  ret (mkPlace placeId (or_empty response.(det_displayName)) response.(det_location)
         (or_empty response.(det_primaryType))
         (Some (or_empty response.(det_formattedAddress)))
         (Some (or_empty response.(det_websiteUri)))
         (Some (or_empty response.(det_nationalPhoneNumber)))).

(* ------------------------------------------------------------------ *)
(** ** The Places [App]: search, enrichment, retry and Research All *)

(** [a || b] on strings. *)
Definition or_else (a b : string) : string := if JS.truthy a then a else b.

(** [{ ...b, ...researchedData, websiteUri: ..., phone: placeDetails.nationalPhoneNumber || b.phone,
    address: placeDetails.formattedAddress || b.address, rating: ...,
    userRatingCount: ..., isResearching: false }]; [websiteUri], [rating]
    and [userRatingCount] are not [Business] fields and nothing reads them,
    so they are left out. *)
Definition merge_places (b : Business) (d : ResearchedBusinessData)
  (placeDetails : PlaceSearchResult) : Business :=
  {| id := b.(id);
     discoveryName := b.(discoveryName);
     discoveryWebsite := b.(discoveryWebsite);
     companyName := d.(r_companyName);
     contactName := d.(r_contactName);
     address := or_else (or_empty placeDetails.(place_formattedAddress)) b.(address);
     phone := or_else (or_empty placeDetails.(place_nationalPhoneNumber)) b.(phone);
     email := d.(r_email);
     description := d.(r_description);
     status := b.(status);
     dateFound := b.(dateFound);
     emailThreadId := b.(emailThreadId);
     isResearching := false;
     areaSearched := b.(areaSearched);
     businessType := b.(businessType);
     lat := b.(lat);
     lng := b.(lng) |}.

(** The answers of the two calls of one enrichment. *)
Record PlacesEnrichAnswers := mkPlacesEnrichAnswers {
  details_reply : Reply RawDetails;
  research_reply : Res ResearchedBusinessData;
}.

(** [processResearchAndGeocoding(business)] of the Places [App]. *)
Definition processResearchAndGeocoding_places (apiKey : option string)
  (business : Business) (ans : PlacesEnrichAnswers) : M unit :=
  try_catch
    (placeDetails <- getPlaceDetails apiKey business.(id) ans.(details_reply) ;;
     researchedData <- researchBusiness business.(discoveryName)
                         business.(discoveryWebsite) ans.(research_reply) ;;
     setBusinesses (update_by_id business.(id)
                      (fun b => merge_places b researchedData placeDetails)))
    (fun _ => setBusinesses (update_by_id business.(id) (mark_failed "Research failed."))).

(** [{ ...businessToRetry, dateFound: today }] *)
Definition with_date (today : string) (b : Business) : Business :=
  {| id := b.(id);
     discoveryName := b.(discoveryName);
     discoveryWebsite := b.(discoveryWebsite);
     companyName := b.(companyName);
     contactName := b.(contactName);
     address := b.(address);
     phone := b.(phone);
     email := b.(email);
     description := b.(description);
     status := b.(status);
     dateFound := today;
     emailThreadId := b.(emailThreadId);
     isResearching := b.(isResearching);
     areaSearched := b.(areaSearched);
     businessType := b.(businessType);
     lat := b.(lat);
     lng := b.(lng) |}.

(** [handleRetryResearch(businessId)] of the Places [App]. *)
Definition handleRetryResearch_places (apiKey : option string) (today : string)
  (businesses : Store) (businessId : string) (ans : PlacesEnrichAnswers) : M unit :=
  match find_by_id businessId businesses with
  | None => ret tt
  | Some businessToRetry =>
      setBusinesses (update_by_id businessId mark_researching) ;;;
      processResearchAndGeocoding_places apiKey (with_date today businessToRetry) ans
  end.

(** [!b.isResearching && b.status === BusinessStatus.DISCOVERED] *)
Definition research_all_target (b : Business) : bool :=
  negb b.(isResearching) &&
  match b.(status) with DISCOVERED => true | _ => false end.

(** The [for ... of] loop of the Research All button: [answers i] are the
    answers to the [i]-th enrichment. *)
Fixpoint research_loop (apiKey : option string) (answers : nat -> PlacesEnrichAnswers)
  (i : nat) (toResearch : list Business) : M unit :=
  match toResearch with
  | [] => ret tt
  | b :: rest =>
      setBusinesses (update_by_id b.(id) mark_researching) ;;;
      processResearchAndGeocoding_places apiKey (mark_researching b) (answers i) ;;;
      research_loop apiKey answers (S i) rest
  end.

(** The click handler of Research All, on the rendered [businesses]. *)
Definition researchAll (apiKey : option string) (answers : nat -> PlacesEnrichAnswers)
  (businesses : Store) : M unit :=
  research_loop apiKey answers 0 (filter research_all_target businesses).

(** The digits read by [parseInt]: the value so far ([None] before the
    first digit) extended by the longest run of decimal digits. *)
Fixpoint read_digits (s : string) (acc : num) : num :=
  match s with
  | EmptyString => acc
  | String c r =>
      let n := nat_of_ascii c in
      if ((48 <=? n) && (n <=? 57))%nat then
        read_digits r (Some ((match acc with Some a => a | None => 0 end) * 10
                             + Z.of_nat (n - 48))%Z)
      else acc
  end.

(** [parseInt(s, 10)]: leading white space, an optional sign, then the
    digits; [NaN] without a digit.  (The model is exact where a double
    would round very long digit strings.) *)
Definition parseInt10 (s : string) : num :=
  match JS.trim_start s with
  | EmptyString => None
  | String c r =>
      if Ascii.eqb c "-" then option_map Z.opp (read_digits r None)
      else if Ascii.eqb c "+" then read_digits r None
      else read_digits (String c r) None
  end.

(** [numResults === 'ALL' ? 20 : parseInt(numResults, 10)] *)
Definition maxResults_of (numResults : string) : num :=
  if String.eqb numResults "ALL" then Some 20%Z else parseInt10 numResults.

(** The record built from a place; [place.location.latitude] throws
    ([None]) when the place has no [location]. *)
Definition business_of_place (searchLocation searchType today : string)
  (place : PlaceSearchResult) : option Business :=
  match place.(place_location) with
  | None => None
  | Some (la, ln) =>
      Some {| id := place.(place_id);
              discoveryName := place.(place_displayName);
              discoveryWebsite := or_empty place.(place_websiteUri);
              companyName := place.(place_displayName);
              contactName := "";
              address := or_empty place.(place_formattedAddress);
              phone := or_empty place.(place_nationalPhoneNumber);
              email := "";
              description := "";
              status := DISCOVERED;
              dateFound := today;
              emailThreadId := "N/A";
              isResearching := false;
              areaSearched := searchLocation;
              businessType := searchType;
              lat := Some la;
              lng := Some ln |}
  end.

(** [places.map(...)], which stops at the first throw. *)
Fixpoint map_opt {A B : Type} (f : A -> option B) (l : list A) : option (list B) :=
  match l with
  | [] => Some []
  | x :: r =>
      match f x, map_opt f r with
      | Some y, Some ys => Some (y :: ys)
      | _, _ => None
      end
  end.

Definition found_msg (n : nat) : string :=
  ("Found " ++ NilEmpty.string_of_uint (Nat.to_uint n) ++
   " businesses. Select businesses to research or use " ++ quoted "Research All" ++
   " to enrich all results.")%string.

(** [handleSearch(location, businessType, numResults, searchArea)] of the
    Places [App]: the [try] body, its [catch] and the [finally]. *)
Definition handleSearch_places (apiKey : option string)
  (searchLocation searchType numResults today : string) (searchArea : SearchArea)
  (reply : PlacesRequest -> Reply (option (list RawPlace))) (st : AppState) : AppState :=
  let body :=
    (places <- searchPlacesInArea apiKey searchType searchArea (maxResults_of numResults) reply ;;
     match map_opt (business_of_place searchLocation searchType today) places with
     | None => throw "TypeError"
     | Some newBusinesses =>
         setBusinesses (merge_batch newBusinesses) ;;; ret (length places)
     end) in
  match body st.(businesses) with
  | (Ok n, s) => mkAppState s false (found_msg n) None
  | (Err _, s) => mkAppState s false "" (Some discovery_error_msg)
  end.

(* ------------------------------------------------------------------ *)
(** ** [SearchForm] *)

(** [handleSubmit] of [SearchForm]: the arguments of [onSearch], if it is
    called. *)
Definition handleSubmit (location businessType numResults : string)
  : option (string * string * string) :=
  if JS.truthy (JS.trim location) && JS.truthy (JS.trim businessType)
  then Some (location, businessType, numResults) else None.

(* ------------------------------------------------------------------ *)
(** ** Marker synchronisation ([BusinessMap] and [MapSearchForm]) *)

(** A marker as created by the effect: its position and title. *)
Record Marker := mkMarker {
  marker_position : Coords;
  marker_title : string;
}.

(** The [Map] of markers by business id, in insertion order. *)
Definition MarkerMap := list (string * Marker).

Definition map_get (k : string) (m : MarkerMap) : option Marker :=
  option_map snd (find (fun e => String.eqb (fst e) k) m).

Definition map_has (k : string) (m : MarkerMap) : bool :=
  existsb (fun e => String.eqb (fst e) k) m.

(** [Map.prototype.set]: replaces the entry of [k] in place, or appends. *)
Fixpoint map_set (k : string) (v : Marker) (m : MarkerMap) : MarkerMap :=
  match m with
  | [] => [(k, v)]
  | (k', v') :: r => if String.eqb k' k then (k, v) :: r else (k', v') :: map_set k v r
  end.

Definition map_delete (k : string) (m : MarkerMap) : MarkerMap :=
  filter (fun e => negb (String.eqb (fst e) k)) m.

Definition set_delete (k : string) (s : list string) : list string :=
  filter (fun x => negb (String.eqb x k)) s.

(** [businesses.filter(b => b.lat != null && b.lng != null)], each with
    its position [{ lat: b.lat!, lng: b.lng! }]. *)
Definition with_coords (businesses : Store) : list (Business * Coords) :=
  flat_map (fun b => match b.(lat), b.(lng) with
                     | Some la, Some ln => [(b, (la, ln))]
                     | _, _ => []
                     end) businesses.

(** The body of [withCoords.forEach(b => ...)]: [currentMarkerIds.delete(b.id)],
    then a new marker (title [b.companyName || b.discoveryName]) unless
    the [Map] has one for [b.id]. *)
Definition sync_step (acc : list string * MarkerMap) (bp : Business * Coords)
  : list string * MarkerMap :=
  let '(cur, m) := acc in
  let '(b, position) := bp in
  let cur' := set_delete b.(id) cur in
  if map_has b.(id) m then (cur', m)
  else (cur', map_set b.(id) (mkMarker position (or_else b.(companyName) b.(discoveryName))) m).

(** The marker sync effect; [mapReady] is [googleMap.current && isMapLoaded].
    The ids left in [currentMarkerIds] are deleted from the [Map].  The
    [fitBounds]/[setZoom] of the view are not modelled. *)
Definition sync_markers (mapReady : bool) (businesses : Store) (markers : MarkerMap)
  : MarkerMap :=
  if negb mapReady then markers else
  let currentMarkerIds := map fst markers in
  let '(stale, markers') :=
    fold_left sync_step (with_coords businesses) (currentMarkerIds, markers) in
  fold_left (fun m k => map_delete k m) stale markers'.

(* ------------------------------------------------------------------ *)
(** ** Views used by the statements on the Places code *)

(** A string made of white space only (the empty string included). *)
Fixpoint all_ws (s : string) : bool :=
  match s with
  | EmptyString => true
  | String c r => JS.is_ws c && all_ws r
  end.

(** The result count a request asks for. *)
Definition request_count (r : PlacesRequest) : num :=
  match r with
  | SearchNearby body => body.(maxResultCount)
  | SearchText body => body.(pageSize)
  end.

(** The fields that no enrichment is meant to touch. *)
Definition identity_fields (b : Business) :=
  (b.(id), b.(discoveryName), b.(discoveryWebsite), b.(status), b.(dateFound),
   b.(emailThreadId), b.(areaSearched), b.(businessType), b.(lat), b.(lng)).

(* ================================================================== *)
(** * Proofs *)

(* ------------------------------------------------------------------ *)
(** ** String lemmas *)

Lemma str_app_nil (s : string) : (s ++ EmptyString)%string = s.
Proof. induction s as [|c s IH]; simpl; [reflexivity | now rewrite IH]. Qed.

Lemma str_app_assoc (a b c : string) : ((a ++ b) ++ c)%string = (a ++ (b ++ c))%string.
Proof. induction a as [|x a IH]; simpl; [reflexivity | now rewrite IH]. Qed.

Lemma concat_empty_cons (c : string) (cs : list string) :
  String.concat EmptyString (c :: cs) = (c ++ String.concat EmptyString cs)%string.
Proof. destruct cs; simpl; [now rewrite str_app_nil | reflexivity]. Qed.

(* ------------------------------------------------------------------ *)
(** ** The chunk loop of [findBusinessesStream] *)

Lemma break_nl_none (s : string) :
  break_nl s = None -> split_nl s = ([], s).
Proof.
  induction s as [|c r IH]; simpl; [reflexivity|].
  destruct (Ascii.eqb c newline); [discriminate|].
  destruct (break_nl r) as [[a b]|]; [discriminate|].
  intros _. now rewrite IH.
Qed.

Lemma break_nl_some (s a b : string) :
  break_nl s = Some (a, b) ->
  split_nl s = (a :: fst (split_nl b), snd (split_nl b)) /\
  String.length b < String.length s.
Proof.
  revert a b. induction s as [|c r IH]; intros a b; simpl; [discriminate|].
  destruct (Ascii.eqb c newline).
  - intros [= <- <-]. destruct (split_nl r); simpl; split; [reflexivity | lia].
  - destruct (break_nl r) as [[a' b']|] eqn:E; [|discriminate].
    intros [= <- <-]. destruct (IH a' b' eq_refl) as [Hs Hl].
    rewrite Hs. split; [reflexivity | lia].
Qed.

Lemma split_nl_rest (s : string) : break_nl (snd (split_nl s)) = None.
Proof.
  induction s as [|c r IH]; simpl; [reflexivity|].
  destruct (split_nl r) as [ls t]; simpl in IH.
  destruct (Ascii.eqb c newline) eqn:E; [exact IH|].
  destruct ls; simpl; [rewrite E, IH; reflexivity | exact IH].
Qed.

(** The inner loop emits the parses of the complete lines of the buffer
    and leaves the trailing partial line. *)
Lemma drain_spec (fuel : nat) (s : string) :
  String.length s < fuel ->
  drain fuel s = (flat_map (fun l => parse_line (JS.trim l)) (fst (split_nl s)),
                  snd (split_nl s)).
Proof.
  revert s. induction fuel as [|f IH]; intros s Hlt; [lia|]. simpl.
  destruct (break_nl s) as [[a b]|] eqn:E.
  - destruct (break_nl_some s a b E) as [Hs Hl].
    rewrite (IH b ltac:(lia)), Hs. reflexivity.
  - now rewrite (break_nl_none s E).
Qed.

Lemma split_nl_app (s c : string) :
  split_nl (s ++ c) =
  (fst (split_nl s) ++ fst (split_nl (snd (split_nl s) ++ c)),
   snd (split_nl (snd (split_nl s) ++ c))).
Proof.
  induction s as [|x r IH]; simpl.
  - destruct (split_nl c); reflexivity.
  - destruct (split_nl r) as [ls t] eqn:R; simpl in IH |- *. rewrite IH.
    destruct (split_nl (t ++ c)%string) as [ls' t'] eqn:E; simpl.
    destruct (Ascii.eqb x newline) eqn:X; simpl; [now rewrite E|].
    destruct ls as [|l ls]; simpl; [|now rewrite E].
    rewrite E, X. destruct ls'; reflexivity.
Qed.

(** Chunk boundaries do not matter: the chunk loop from a buffer without
    newline computes what the inner loop computes on the whole text. *)
Lemma stream_chunks_spec (cs : list string) (b : string) :
  break_nl b = None ->
  stream_chunks cs b =
  (flat_map (fun l => parse_line (JS.trim l))
     (fst (split_nl (b ++ String.concat EmptyString cs))),
   snd (split_nl (b ++ String.concat EmptyString cs))).
Proof.
  revert b. induction cs as [|c cs IH]; intros b Hb.
  - simpl. rewrite str_app_nil, (break_nl_none b Hb). reflexivity.
  - cbn [stream_chunks]. unfold on_chunk. rewrite drain_spec by lia.
    rewrite IH by apply split_nl_rest.
    rewrite concat_empty_cons, <- str_app_assoc, (split_nl_app (b ++ c)).
    simpl. now rewrite flat_map_app.
Qed.

(** C3. Streaming parse correctness: however the sample answer
    [Acme Cafe | https://acme.test], [Not A Line], [Beta Bar | https://beta.test]
    (newline separated) is cut into chunks, the parser calls [onDiscovery]
    exactly twice, with (Acme Cafe, https://acme.test) then
    (Beta Bar, https://beta.test); the middle line emits nothing; the
    unterminated last line is what the chunk loop leaves in the buffer, and
    the flush after the stream emits it. *)
Theorem stream_parse_sample (chunks : list string) :
  String.concat EmptyString chunks = sample_text ->
  stream_emits chunks =
    [mkDiscovery "Acme Cafe" "https://acme.test";
     mkDiscovery "Beta Bar" "https://beta.test"] /\
  parse_line (JS.trim "Not A Line") = [] /\
  snd (stream_chunks chunks EmptyString) = "Beta Bar | https://beta.test" /\
  flush (snd (stream_chunks chunks EmptyString)) =
    [mkDiscovery "Beta Bar" "https://beta.test"].
Proof.
  intros H. unfold stream_emits.
  rewrite (stream_chunks_spec chunks EmptyString eq_refl). simpl.
  rewrite H. vm_compute. repeat split.
Qed.

Lemma stream_parse_sample_witness :
  String.concat EmptyString
    ["Acme Ca"; "fe | https://acme.test"; String newline "Not A"; " Line";
     String newline "Beta B"; "ar | https://beta.test"] = sample_text /\
  stream_emits ["Acme Ca"; "fe | https://acme.test"; String newline "Not A"; " Line";
     String newline "Beta B"; "ar | https://beta.test"] =
    [mkDiscovery "Acme Cafe" "https://acme.test";
     mkDiscovery "Beta Bar" "https://beta.test"].
Proof.
  split; [vm_compute; reflexivity|].
  apply (stream_parse_sample ["Acme Ca"; "fe | https://acme.test";
           String newline "Not A"; " Line"; String newline "Beta B";
           "ar | https://beta.test"]).
  vm_compute. reflexivity.
Defined.

(* ------------------------------------------------------------------ *)
(** ** CSV export *)

Lemma unquote_double_quotes (s : string) :
  unquote_body (double_quotes s ++ String dq EmptyString) = Some s.
Proof.
  induction s as [|c r IH]; [reflexivity|]. simpl.
  destruct (Ascii.eqb c dq) eqn:E.
  - apply Ascii.eqb_eq in E. subst c. simpl. rewrite IH. reflexivity.
  - simpl. rewrite E, IH. reflexivity.
Qed.

Lemma escapeCsvCell_stream_same (s : string) : escapeCsvCell_stream s = escapeCsvCell s.
Proof. destruct s; reflexivity. Qed.

(** C7. CSV cell escaping: both versions of [escapeCsvCell] put the cell
    between double quotes with every embedded double quote doubled, so
    standard CSV reading gives the string back; the description
    He said <dq>hi<dq>, then left becomes the cell
    <dq>He said <dq><dq>hi<dq><dq>, then left<dq>, where <dq> is a double
    quote. *)
Theorem csv_cell_roundtrip :
  (forall s, parse_csv_cell (escapeCsvCell s) = Some s /\
             parse_csv_cell (escapeCsvCell_stream s) = Some s) /\
  escapeCsvCell ("He said " ++ String dq "hi" ++ String dq ", then left") =
    String dq ("He said " ++ String dq (String dq "hi") ++
               String dq (String dq ", then left") ++ String dq EmptyString).
Proof.
  split; [|reflexivity].
  intros s. rewrite escapeCsvCell_stream_same.
  assert (H : parse_csv_cell (escapeCsvCell s) = Some s).
  { unfold escapeCsvCell, parse_csv_cell. rewrite Ascii.eqb_refl.
    destruct (JS.truthy s) eqn:T.
    - apply unquote_double_quotes.
    - unfold JS.truthy in T. apply negb_false_iff, String.eqb_eq in T.
      subst s. reflexivity. }
  split; exact H.
Qed.

Lemma exportToCsv_columns (bs : Store) :
  bs <> [] -> exportToCsv bs = Some (csv_of_columns escapeCsvCell spec_columns bs).
Proof. destruct bs; [contradiction | reflexivity]. Qed.

Lemma csv_content_ext (e1 e2 : string -> string) (h : list string)
  (rows : list (list string)) :
  (forall s, e1 s = e2 s) -> csv_content e1 h rows = csv_content e2 h rows.
Proof.
  intros E. unfold csv_content, csv_line. rewrite (map_ext e1 e2 E).
  do 3 f_equal. apply map_ext. intros r. now rewrite (map_ext e1 e2 E).
Qed.

Lemma exportToCsv_stream_columns (bs : Store) :
  bs <> [] -> exportToCsv_stream bs = Some (csv_of_columns escapeCsvCell stream_columns bs).
Proof.
  destruct bs as [|b bs]; [contradiction|]. intros _. unfold exportToCsv_stream.
  rewrite (csv_content_ext _ escapeCsvCell _ _ escapeCsvCell_stream_same).
  reflexivity.
Qed.

(** C8 (counterexample). The stream-only [App] exports Description before
    Website, so its export differs from the listed column order; and the
    empty store exports nothing. *)
Lemma csv_column_order_counterexample :
  exportToCsv_stream [sample_business] <>
    Some (csv_of_columns escapeCsvCell spec_columns [sample_business]) /\
  exportToCsv [] = None.
Proof. split; [vm_compute; discriminate | reflexivity]. Qed.

(** C8 (amended). For a non-empty store, the map and Places [App]s export
    the header Company Name, Contact Name, Address, Phone, Email, Website,
    Description, Status, Date Found/Updated, Email Thread ID, Area Searched,
    Business Type and one row per record, in store order, with the cells in
    the header's order; the stream-only [App] does the same with Description
    before Website.  Every row has as many cells as the header.  An empty
    store exports nothing, in every [App]. *)
Theorem csv_column_order (bs : Store) :
  (bs = [] -> exportToCsv bs = None /\ exportToCsv_stream bs = None) /\
  (bs <> [] ->
   exportToCsv bs = Some (csv_of_columns escapeCsvCell spec_columns bs) /\
   exportToCsv_stream bs = Some (csv_of_columns escapeCsvCell stream_columns bs) /\
   map fst spec_columns =
     ["Company Name"; "Contact Name"; "Address"; "Phone"; "Email"; "Website";
      "Description"; "Status"; "Date Found/Updated"; "Email Thread ID";
      "Area Searched"; "Business Type"] /\
   (forall b, length (map (fun c => snd c b) spec_columns) = length spec_columns)).
Proof.
  split.
  - intros ->. split; reflexivity.
  - intros H. split; [now apply exportToCsv_columns|].
    split; [now apply exportToCsv_stream_columns|].
    split; [reflexivity|]. intros b. apply length_map.
Qed.

Lemma csv_column_order_witness :
  ([] : Store) = [] /\ [sample_business] <> [] /\
  exportToCsv_stream [] = None /\
  exportToCsv [sample_business] =
    Some (csv_of_columns escapeCsvCell spec_columns [sample_business]).
Proof.
  split; [reflexivity|]. split; [discriminate|]. split.
  - apply (proj1 (csv_column_order []) eq_refl).
  - apply (proj2 (csv_column_order [sample_business])). discriminate.
Defined.

(* ------------------------------------------------------------------ *)
(** ** Enrichment: outcomes of the calls *)

Lemma geocodeAddress_resolves (k : option string) (a : string)
  (g : Res GeocodeReply) (s : Store) :
  exists c, geocodeAddress k a g s = (Ok c, s).
Proof.
  unfold geocodeAddress, try_catch, ret, throw.
  destruct k as [k|]; [|eauto].
  destruct (JS.truthy k); [|eauto].
  destruct g as [data|e]; [|eauto].
  destruct (String.eqb (g_status data) "OK"); [|eauto].
  destruct (g_results data); eauto.
Qed.

Lemma researchBusiness_ok (n w : string) (d : ResearchedBusinessData) (s : Store) :
  researchBusiness n w (Ok d) s = (Ok d, s).
Proof. reflexivity. Qed.

Lemma researchBusiness_err (n w e : string) (s : Store) :
  exists e', researchBusiness n w (Err e) s = (Err e', s).
Proof. eexists. reflexivity. Qed.

(** When the research call rejects, [processResearchAndGeocoding]
    resolves and records the failure on the record. *)
Lemma process_failure (key : option string) (b : Business) (ans : EnrichAnswers)
  (e : string) (s : Store) :
  research_answer ans = Err e ->
  processResearchAndGeocoding key b ans s =
    (Ok tt, update_by_id b.(id) (mark_failed "Research failed.") s).
Proof.
  intros H. unfold processResearchAndGeocoding, try_catch, bind.
  rewrite H. destruct (researchBusiness_err (discoveryName b) (discoveryWebsite b) e s)
    as [e' ->]. reflexivity.
Qed.

(** When the research call resolves with [d], [processResearchAndGeocoding]
    merges [d] (and the coordinates, if any) into the record; no
    coordinates are looked up for an empty or [Not Found] address. *)
Lemma process_success (key : option string) (b : Business) (ans : EnrichAnswers)
  (d : ResearchedBusinessData) (s : Store) :
  research_answer ans = Ok d ->
  exists coords,
    processResearchAndGeocoding key b ans s =
      (Ok tt, update_by_id b.(id) (fun x => merge_research x d coords) s) /\
    ((d.(r_address) = "Not Found" \/ d.(r_address) = "") -> coords = None).
Proof.
  intros H. unfold processResearchAndGeocoding, try_catch, bind.
  rewrite H, researchBusiness_ok.
  destruct (JS.truthy (r_address d) && negb (String.eqb (r_address d) "Not Found")) eqn:A.
  - destruct (geocodeAddress_resolves key (r_address d) (geocode_answer ans) s)
      as [c Hc]. rewrite Hc. exists c. split; [reflexivity|].
    intros [E|E]; rewrite E in A; discriminate.
  - exists None. split; reflexivity.
Qed.

Lemma research_chain_failure (nb : Business) (e : string) (s : Store) :
  research_chain nb (Err e) s =
    (Ok tt, update_by_id nb.(id) (mark_failed "Research failed.") s).
Proof. reflexivity. Qed.

Lemma research_chain_success (nb : Business) (d : ResearchedBusinessData) (s : Store) :
  research_chain nb (Ok d) s =
    (Ok tt, update_by_id nb.(id) (fun x => merge_research x d None) s).
Proof. reflexivity. Qed.

Lemma find_by_id_id (bid : string) (s : Store) (b : Business) :
  find_by_id bid s = Some b -> b.(id) = bid /\ In b s.
Proof.
  unfold find_by_id. intros H. split.
  - apply find_some in H. destruct H as [_ H]. now apply String.eqb_eq.
  - now apply find_some in H.
Qed.

Lemma update_by_id_compose (bid : string) (f g : Business -> Business) (s : Store) :
  (forall b, (f b).(id) = b.(id)) ->
  update_by_id bid g (update_by_id bid f s) = update_by_id bid (fun b => g (f b)) s.
Proof.
  intros Hf. unfold update_by_id. rewrite map_map. apply map_ext. intros b.
  destruct (String.eqb (id b) bid) eqn:E.
  - now rewrite Hf, E.
  - now rewrite E.
Qed.

(** The failed retry of the stream-only [App]. *)
Lemma retry_failure (today bid e : string) (s : Store) (bt : Business) :
  find_by_id bid s = Some bt ->
  handleRetryResearch today s bid (Err e) s =
    (Ok tt, update_by_id bid (fun b => mark_failed "Research failed again."
                                         (mark_researching b)) s).
Proof.
  intros H. unfold handleRetryResearch. rewrite H.
  unfold bind, retry_start, retry_finish, try_catch.
  simpl. unfold setBusinesses. now rewrite update_by_id_compose by reflexivity.
Qed.

(** The failed retry of the map [App]. *)
Lemma retry_map_failure (key : option string) (today bid e : string) (s : Store)
  (bt : Business) (ans : EnrichAnswers) :
  find_by_id bid s = Some bt -> research_answer ans = Err e ->
  handleRetryResearch_map key today s bid ans s =
    (Ok tt, update_by_id bid (fun b => mark_failed "Research failed."
                                         (mark_researching b)) s).
Proof.
  intros H He. destruct (find_by_id_id bid s bt H) as [Hid _].
  unfold handleRetryResearch_map. rewrite H.
  unfold bind at 1, retry_start, setBusinesses at 1.
  rewrite (process_failure _ _ _ e _ He). simpl. rewrite Hid.
  now rewrite update_by_id_compose by reflexivity.
Qed.

(* ------------------------------------------------------------------ *)
(** ** Merge by id *)

Lemma update_frames (bid : string) (f : Business -> Business) (s : Store) :
  (forall b, (f b).(id) = b.(id)) -> frames bid s (update_by_id bid f s).
Proof.
  intros Hf. induction s as [|x s IH]; constructor; [|exact IH].
  simpl. destruct (String.eqb (id x) bid) eqn:E.
  - split; [apply Hf|]. intros N. apply String.eqb_eq in E. contradiction.
  - split; reflexivity.
Qed.

Lemma frames_refl (bid : string) (s : Store) : frames bid s s.
Proof. induction s; constructor; auto. Qed.

Lemma frames_trans (bid : string) (s1 s2 s3 : Store) :
  frames bid s1 s2 -> frames bid s2 s3 -> frames bid s1 s3.
Proof.
  intros H12. revert s3. induction H12 as [|x y s1 s2 [Hi Ho] _ IH]; intros s3 H23.
  - inversion H23. constructor.
  - inversion H23 as [|y' z s2' s3' [Hi' Ho'] Hr]; subst. constructor.
    + split; [congruence|]. intros N. rewrite Ho' by congruence. apply Ho, N.
    + apply IH, Hr.
Qed.

Lemma update_failure (bid msg : string) (f : Business -> Business) (s : Store) :
  (forall x, (f x).(isResearching) = false /\ (f x).(description) = msg /\
             fields_but_description (f x) = fields_but_description x) ->
  records_failure bid msg s (update_by_id bid f s).
Proof.
  intros Hf. induction s as [|x s IH]; constructor; [|exact IH].
  simpl. destruct (String.eqb (id x) bid) eqn:E.
  - apply String.eqb_eq in E. split; [intros _; apply Hf | contradiction].
  - apply String.eqb_neq in E. split; [contradiction | reflexivity].
Qed.

Lemma process_frames (key : option string) (b : Business) (ans : EnrichAnswers)
  (s : Store) :
  frames b.(id) s (snd (processResearchAndGeocoding key b ans s)).
Proof.
  destruct (research_answer ans) as [d|e] eqn:R.
  - destruct (process_success key b ans d s R) as [c [-> _]].
    apply update_frames. reflexivity.
  - rewrite (process_failure key b ans e s R). apply update_frames. reflexivity.
Qed.

Lemma research_chain_frames (nb : Business) (answer : Res ResearchedBusinessData)
  (s : Store) :
  frames nb.(id) s (snd (research_chain nb answer s)).
Proof.
  destruct answer as [d|e];
    [rewrite research_chain_success | rewrite research_chain_failure];
    apply update_frames; reflexivity.
Qed.

Lemma retry_start_frames (bid : string) (s : Store) :
  frames bid s (snd (retry_start bid s)).
Proof. apply update_frames. reflexivity. Qed.

Lemma retry_finish_frames (today bid : string) (bt : Business)
  (answer : Res ResearchedBusinessData) (s : Store) :
  frames bid s (snd (retry_finish today bid bt answer s)).
Proof.
  destruct answer as [d|e]; apply update_frames; reflexivity.
Qed.

Lemma handleRetryResearch_frames (today : string) (s0 : Store) (bid : string)
  (answer : Res ResearchedBusinessData) (s : Store) :
  frames bid s (snd (handleRetryResearch today s0 bid answer s)).
Proof.
  unfold handleRetryResearch. destruct (find_by_id bid s0) as [bt|]; [|apply frames_refl].
  unfold bind at 1. simpl.
  apply (frames_trans bid s (update_by_id bid mark_researching s));
    [apply retry_start_frames | apply retry_finish_frames].
Qed.

Lemma handleRetryResearch_map_frames (key : option string) (today : string)
  (s0 : Store) (bid : string) (ans : EnrichAnswers) (s : Store) :
  frames bid s (snd (handleRetryResearch_map key today s0 bid ans s)).
Proof.
  unfold handleRetryResearch_map. destruct (find_by_id bid s0) as [bt|] eqn:F;
    [|apply frames_refl].
  destruct (find_by_id_id bid s0 bt F) as [Hid _].
  unfold bind at 1. simpl.
  apply (frames_trans bid s (update_by_id bid mark_researching s));
    [apply retry_start_frames|].
  subst bid. match goal with
  | |- context [processResearchAndGeocoding key ?b ans ?s'] =>
      exact (process_frames key b ans s')
  end.
Qed.

(** C10. Merge-by-id frame: the merge of an enrichment (success or
    failure, in the map [App] and in the stream [App]), the researching mark
    of a retry and the outcome of a retry change only the records whose id
    is the targeted one; every other record is left as it was, and the
    store keeps its length, its order and its ids. *)
Theorem merge_by_id_frame :
  (forall key b ans s,
      frames b.(id) s (snd (processResearchAndGeocoding key b ans s))) /\
  (forall nb answer s, frames nb.(id) s (snd (research_chain nb answer s))) /\
  (forall bid s, frames bid s (snd (retry_start bid s))) /\
  (forall today s0 bid answer s,
      frames bid s (snd (handleRetryResearch today s0 bid answer s))) /\
  (forall key today s0 bid ans s,
      frames bid s (snd (handleRetryResearch_map key today s0 bid ans s))) /\
  (forall bid s s', frames bid s s' ->
      length s' = length s /\ ids s' = ids s /\
      (forall i x, nth_error s i = Some x -> x.(id) <> bid -> nth_error s' i = Some x)).
Proof.
  split; [exact process_frames|].
  split; [exact research_chain_frames|].
  split; [exact retry_start_frames|].
  split; [exact handleRetryResearch_frames|].
  split; [exact handleRetryResearch_map_frames|].
  intros bid s s' H. induction H as [|x x' s s' [Hi Ho] _ [IHl [IHi IHn]]].
  - repeat split. intros [|i] y Hy; discriminate.
  - simpl. split; [now rewrite IHl|]. split; [unfold ids in *; simpl; congruence|].
    intros [|i] y Hy Hn; simpl in *.
    + injection Hy as <-. now rewrite Ho.
    + now apply IHn.
Qed.

(* ------------------------------------------------------------------ *)
(** ** Enrichment failures and retries *)

(** C4. Enrichment failure containment: when the research call rejects,
    the enrichment (map [App]), the research chain started by [onDiscovery]
    (stream [App]) and the retries of both [App]s resolve without error; the
    record of the targeted id is no longer researching and its description
    is [Research failed.] ([Research failed again.] for the retry of the
    stream [App]); nothing else changes. *)
Theorem enrichment_failure_contained (key : option string) (b : Business)
  (ans : EnrichAnswers) (e today bid : string) (s : Store) :
  research_answer ans = Err e ->
  (fst (processResearchAndGeocoding key b ans s) = Ok tt /\
   records_failure b.(id) "Research failed." s
     (snd (processResearchAndGeocoding key b ans s))) /\
  (fst (research_chain b (Err e) s) = Ok tt /\
   records_failure b.(id) "Research failed." s (snd (research_chain b (Err e) s))) /\
  (fst (handleRetryResearch today s bid (Err e) s) = Ok tt /\
   (find_by_id bid s <> None ->
    records_failure bid "Research failed again." s
      (snd (handleRetryResearch today s bid (Err e) s)))) /\
  (fst (handleRetryResearch_map key today s bid ans s) = Ok tt /\
   (find_by_id bid s <> None ->
    records_failure bid "Research failed." s
      (snd (handleRetryResearch_map key today s bid ans s)))).
Proof.
  intros He. split; [|split; [|split]].
  - rewrite (process_failure key b ans e s He). split; [reflexivity|].
    apply update_failure. intros x. repeat split.
  - rewrite research_chain_failure. split; [reflexivity|].
    apply update_failure. intros x. repeat split.
  - destruct (find_by_id bid s) as [bt|] eqn:F.
    + rewrite (retry_failure today bid e s bt F). split; [reflexivity|].
      intros _. apply update_failure. intros x. repeat split.
    + unfold handleRetryResearch. rewrite F. split; [reflexivity|].
      intros N. contradiction.
  - destruct (find_by_id bid s) as [bt|] eqn:F.
    + rewrite (retry_map_failure key today bid e s bt ans F He).
      split; [reflexivity|].
      intros _. apply update_failure. intros x. repeat split.
    + unfold handleRetryResearch_map. rewrite F. split; [reflexivity|].
      intros N. contradiction.
Qed.

Lemma enrichment_failure_contained_witness :
  research_answer (mkEnrichAnswers (Err "timeout") (Err "unused")) = Err "timeout" /\
  fst (processResearchAndGeocoding (Some "key") sample_business
         (mkEnrichAnswers (Err "timeout") (Err "unused")) [sample_business]) = Ok tt.
Proof.
  split; [reflexivity|].
  apply (enrichment_failure_contained (Some "key") sample_business
           (mkEnrichAnswers (Err "timeout") (Err "unused")) "timeout"
           "2024-06-01" (id sample_business) [sample_business]).
  reflexivity.
Defined.

(** C6 (counterexample). A failed retry of a record whose description was
    enriched replaces that description by [Research failed again.]. *)
Lemma retry_failure_changes_description :
  map description [sample_business] = ["A neighbourhood cafe."] /\
  map description
    (snd (handleRetryResearch "2024-06-01" [sample_business] (id sample_business)
            (Err "timeout") [sample_business])) = ["Research failed again."].
Proof. split; reflexivity. Qed.

(** C6 (amended). While a retry runs, every field of every record is as
    before except that the retried record is marked researching.  When the
    retry fails, the retried record keeps every field (phone, email,
    address, ...) except its description, which becomes
    [Research failed again.] (stream [App]) or [Research failed.] (map
    [App]), and it is no longer researching; other records are untouched. *)
Theorem retry_failure_keeps_fields (key : option string) (today bid e : string)
  (s : Store) (ans : EnrichAnswers) :
  find_by_id bid s <> None -> research_answer ans = Err e ->
  Forall2 (fun x x' =>
     fields_but_description x' = fields_but_description x /\
     x'.(description) = x.(description) /\
     (x.(id) = bid -> x'.(isResearching) = true) /\
     (x.(id) <> bid -> x' = x)) s (snd (retry_start bid s)) /\
  records_failure bid "Research failed again." s
    (snd (handleRetryResearch today s bid (Err e) s)) /\
  records_failure bid "Research failed." s
    (snd (handleRetryResearch_map key today s bid ans s)).
Proof.
  intros Hf He. destruct (find_by_id bid s) as [bt|] eqn:F; [|contradiction].
  split; [|split].
  - clear. unfold retry_start, setBusinesses, update_by_id; simpl.
    induction s as [|x s IH]; constructor; [|exact IH].
    destruct (String.eqb (id x) bid) eqn:E.
    + apply String.eqb_eq in E. repeat split; intros; first [reflexivity | contradiction].
    + apply String.eqb_neq in E. repeat split; intros; first [reflexivity | contradiction].
  - rewrite (retry_failure today bid e s bt F). apply update_failure.
    intros x. repeat split.
  - rewrite (retry_map_failure key today bid e s bt ans F He). apply update_failure.
    intros x. repeat split.
Qed.

Lemma retry_failure_keeps_fields_witness :
  find_by_id (id sample_business) [sample_business] <> None /\
  research_answer (mkEnrichAnswers (Err "timeout") (Err "unused")) = Err "timeout" /\
  records_failure (id sample_business) "Research failed again." [sample_business]
    (snd (handleRetryResearch "2024-06-01" [sample_business] (id sample_business)
            (Err "timeout") [sample_business])).
Proof.
  split; [discriminate|]. split; [reflexivity|].
  apply (retry_failure_keeps_fields (Some "key") "2024-06-01" (id sample_business)
           "timeout" [sample_business] (mkEnrichAnswers (Err "timeout") (Err "unused")));
    [discriminate | reflexivity].
Defined.

(* ------------------------------------------------------------------ *)
(** ** Merge-back of a successful enrichment *)

Lemma update_merged (bid : string) (d : ResearchedBusinessData) (c : option Coords)
  (s : Store) :
  Forall2 (fun x x' =>
     (x.(id) = bid -> merged_from d x x' /\
        (c = None -> x'.(lat) = x.(lat) /\ x'.(lng) = x.(lng))) /\
     (x.(id) <> bid -> x' = x)) s (update_by_id bid (fun x => merge_research x d c) s).
Proof.
  induction s as [|x s IH]; constructor; [|exact IH]. simpl.
  destruct (String.eqb (id x) bid) eqn:E.
  - apply String.eqb_eq in E. split; [|contradiction]. intros _.
    split; [repeat split|]. intros ->. split; reflexivity.
  - apply String.eqb_neq in E. split; [contradiction | reflexivity].
Qed.

(** C1 (counterexample). A research answer with [Not Found] fields and an
    empty description overwrites the enriched phone [555-1234] with
    [Not Found] and the description with the empty string. *)
Lemma merge_not_found_counterexample :
  map phone [sample_business] = ["555-1234"] /\
  map phone (snd (processResearchAndGeocoding (Some "key") sample_business
    (mkEnrichAnswers
       (Ok (mkResearched "Acme Cafe LLC" "Not Found" "Not Found" "Not Found"
              "Not Found" "")) (Err "unused"))
    [sample_business])) = ["Not Found"] /\
  map description (snd (processResearchAndGeocoding (Some "key") sample_business
    (mkEnrichAnswers
       (Ok (mkResearched "Acme Cafe LLC" "Not Found" "Not Found" "Not Found"
              "Not Found" "")) (Err "unused"))
    [sample_business])) = [""].
Proof. repeat split; reflexivity. Qed.

(** C1 (amended). A successful enrichment resolves and sets companyName,
    contactName, address, phone, email and description of the record of
    the targeted id to the research answer's values as they are (an empty or
    [Not Found] value replaces the previous one), keeps its id, discovery
    name and website, status, dateFound, emailThreadId, areaSearched and
    businessType, and clears isResearching; [Not Found] is only honoured by
    the geocoding step: an empty or [Not Found] address is not geocoded and
    the coordinates are kept.  The stream [App]'s research chain merges the
    same way, without coordinates.  Other records are untouched. *)
Theorem merge_back_overwrites (key : option string) (b : Business)
  (ans : EnrichAnswers) (d : ResearchedBusinessData) (s : Store) :
  research_answer ans = Ok d ->
  fst (processResearchAndGeocoding key b ans s) = Ok tt /\
  Forall2 (fun x x' =>
     (x.(id) = b.(id) -> merged_from d x x' /\
        ((d.(r_address) = "Not Found" \/ d.(r_address) = "") ->
         x'.(lat) = x.(lat) /\ x'.(lng) = x.(lng))) /\
     (x.(id) <> b.(id) -> x' = x))
    s (snd (processResearchAndGeocoding key b ans s)) /\
  Forall2 (fun x x' =>
     (x.(id) = b.(id) -> merged_from d x x' /\ x'.(lat) = x.(lat) /\ x'.(lng) = x.(lng)) /\
     (x.(id) <> b.(id) -> x' = x))
    s (snd (research_chain b (Ok d) s)).
Proof.
  intros H. destruct (process_success key b ans d s H) as [c [Hp Hc]].
  rewrite Hp. split; [reflexivity|]. split.
  - simpl. eapply Forall2_impl; [|apply (update_merged (id b) d c s)].
    intros x x' [Hin Hout]. split; [|exact Hout]. intros Hid.
    destruct (Hin Hid) as [Hm Hl]. split; [exact Hm|]. intros A. apply Hl, Hc, A.
  - rewrite research_chain_success. simpl.
    eapply Forall2_impl; [|apply (update_merged (id b) d None s)].
    intros x x' [Hin Hout]. split; [|exact Hout]. intros Hid.
    destruct (Hin Hid) as [Hm Hl]. split; [exact Hm | apply Hl; reflexivity].
Qed.

Lemma merge_back_overwrites_witness :
  research_answer (mkEnrichAnswers
       (Ok (mkResearched "Acme Cafe LLC" "Not Found" "Not Found" "Not Found"
              "Not Found" "")) (Err "unused")) =
    Ok (mkResearched "Acme Cafe LLC" "Not Found" "Not Found" "Not Found" "Not Found" "") /\
  fst (processResearchAndGeocoding (Some "key") sample_business
    (mkEnrichAnswers
       (Ok (mkResearched "Acme Cafe LLC" "Not Found" "Not Found" "Not Found"
              "Not Found" "")) (Err "unused"))
    [sample_business]) = Ok tt.
Proof.
  split; [reflexivity|].
  apply (merge_back_overwrites (Some "key") sample_business
    (mkEnrichAnswers
       (Ok (mkResearched "Acme Cafe LLC" "Not Found" "Not Found" "Not Found"
              "Not Found" "")) (Err "unused"))
    (mkResearched "Acme Cafe LLC" "Not Found" "Not Found" "Not Found" "Not Found" "")
    [sample_business]).
  reflexivity.
Defined.

(* ------------------------------------------------------------------ *)
(** ** Admission and dedupe *)

Lemma string_of_uint_no_dash (u : uint) :
  JS.includes "-" (NilEmpty.string_of_uint u) = false.
Proof. induction u; simpl; auto. Qed.

Lemma dash_join_inj (a1 a2 w1 w2 : string) :
  JS.includes "-" a1 = false -> JS.includes "-" a2 = false ->
  (a1 ++ "-" ++ w1)%string = (a2 ++ "-" ++ w2)%string -> w1 = w2.
Proof.
  revert a2. induction a1 as [|c1 a1 IH]; intros [|c2 a2] H1 H2 E; simpl in *.
  - now injection E.
  - injection E as <- _. discriminate.
  - injection E as -> _. discriminate.
  - apply orb_false_iff in H1 as [_ H1]. apply orb_false_iff in H2 as [_ H2].
    injection E as _ E. exact (IH a2 H1 H2 E).
Qed.

Lemma make_id_inj (t1 t2 : N) (w1 w2 : string) :
  make_id t1 w1 = make_id t2 w2 -> w1 = w2.
Proof. apply dash_join_inj; apply string_of_uint_no_dash. Qed.

Lemma stream_ids_nodup (s : Store) :
  stream_ids s -> NoDup (websites s) -> NoDup (ids s).
Proof.
  unfold stream_ids, websites, ids.
  induction s as [|x s IH]; intros Hs Hw; simpl; [constructor|].
  inversion Hs as [|? ? [tx Hx] Hs']; subst. inversion Hw as [|? ? Hnw Hw']; subst.
  constructor; [|now apply IH].
  intros Hin. apply in_map_iff in Hin as [y [Hy Hyin]].
  rewrite Forall_forall in Hs'. destruct (Hs' y Hyin) as [ty Hty].
  apply Hnw. apply in_map_iff. exists y. split; [|exact Hyin].
  rewrite Hty, Hx in Hy. exact (make_id_inj _ _ _ _ Hy).
Qed.

Lemma existsb_website (w : string) (s : Store) :
  existsb (fun b => String.eqb (discoveryWebsite b) w) s = true <-> In w (websites s).
Proof.
  rewrite existsb_exists. unfold websites. rewrite in_map_iff. split.
  - intros [x [Hx E]]. apply String.eqb_eq in E. eauto.
  - intros [x [E Hx]]. exists x. split; [exact Hx|]. now apply String.eqb_eq.
Qed.

Lemma existsb_seen (w : string) (seen : list string) :
  existsb (String.eqb w) seen = true <-> In w seen.
Proof.
  rewrite existsb_exists. split.
  - intros [x [Hx E]]. apply String.eqb_eq in E. now subst.
  - intros Hx. exists w. split; [exact Hx | apply String.eqb_refl].
Qed.

Lemma truthy_false (w : string) : JS.truthy w = false -> w = "".
Proof. unfold JS.truthy. intros H. apply negb_false_iff in H. now apply String.eqb_eq. Qed.

(** The invariant of the discovery callback's state. *)
Definition admit_inv (st : DiscoveryState) : Prop :=
  NoDup (websites st.(ds_store)) /\ stream_ids st.(ds_store) /\
  incl st.(ds_seen) (websites st.(ds_store)).

Lemma on_discovery_step_spec (location businessType today : string)
  (clock : nat -> N) (d : BusinessDiscovery) (st : DiscoveryState) :
  admit_inv st ->
  let st' := on_discovery_step location businessType today clock d st in
  admit_inv st' /\
  (exists added, st'.(ds_store) = st.(ds_store) ++ added) /\
  (forall w, In w (websites st'.(ds_store)) <->
             In w (websites st.(ds_store)) \/ (w <> "" /\ w = d.(d_website))).
Proof.
  intros [Hnd [Hid Hseen]]. unfold on_discovery_step, onDiscovery.
  destruct (negb (JS.truthy (d_website d)) ||
            (existsb (fun b => String.eqb (discoveryWebsite b) (d_website d)) (ds_store st)
             || existsb (String.eqb (d_website d)) (ds_seen st))) eqn:C; simpl.
  - split; [split; [exact Hnd | split; assumption]|].
    split; [exists []; now rewrite app_nil_r|].
    intros w. split; [now left|]. intros [H|[Hne ->]]; [exact H|].
    apply orb_true_iff in C as [C|C].
    + apply negb_true_iff, truthy_false in C. contradiction.
    + apply orb_true_iff in C as [C|C].
      * now apply existsb_website.
      * apply Hseen. now apply existsb_seen.
  - apply orb_false_iff in C as [T C]. apply orb_false_iff in C as [C1 _].
    apply negb_false_iff in T.
    assert (Hnot : ~ In (d_website d) (websites (ds_store st))).
    { intros Hin. apply existsb_website in Hin. congruence. }
    match goal with |- context [(ds_store st ++ [?nb])%list] => set (x := nb) end.
    assert (Hw : websites (ds_store st ++ [x]) = websites (ds_store st) ++ [d_website d])
      by (unfold websites; now rewrite map_app).
    split; [|split].
    + unfold admit_inv; cbn [ds_store ds_seen]. split; [|split].
      * rewrite Hw. apply NoDup_app; [exact Hnd | repeat constructor; auto|].
        intros a Ha [<-|[]]. contradiction.
      * unfold stream_ids. apply Forall_app. split; [exact Hid|].
        repeat constructor. eexists. reflexivity.
      * rewrite Hw. intros a [<-|Ha]; apply in_app_iff; [right; now left | left; auto].
    + eexists. reflexivity.
    + intros w. rewrite Hw, in_app_iff. simpl. split.
      * intros [H|[<-|[]]]; [now left | right; split; [|reflexivity]].
        intros E. rewrite E in T. discriminate.
      * intros [H|[_ ->]]; [now left | right; now left].
Qed.

Lemma admit_all_spec (location businessType today : string) (clock : nat -> N)
  (ds : list BusinessDiscovery) (st : DiscoveryState) :
  admit_inv st ->
  let st' := admit_all location businessType today clock ds st in
  admit_inv st' /\
  (exists added, st'.(ds_store) = st.(ds_store) ++ added) /\
  (forall w, In w (websites st'.(ds_store)) <->
             In w (websites st.(ds_store)) \/ (w <> "" /\ In w (map d_website ds))).
Proof.
  unfold admit_all. revert st. induction ds as [|d ds IH]; intros st Hinv; simpl.
  - split; [exact Hinv|]. split; [exists []; now rewrite app_nil_r|].
    intros w. split; [now left|]. intros [H|[_ []]]; exact H.
  - destruct (on_discovery_step_spec location businessType today clock d st Hinv)
      as [Hinv1 [[a1 Ha1] Hw1]].
    destruct (IH _ Hinv1) as [Hinv2 [[a2 Ha2] Hw2]].
    split; [exact Hinv2|]. split.
    + exists (a1 ++ a2). rewrite Ha2, Ha1. symmetry. apply app_assoc.
    + intros w. rewrite Hw2, Hw1. intuition.
Qed.

Lemma merge_batch_spec (nb prev : Store) :
  NoDup (ids prev) -> NoDup (ids nb) ->
  NoDup (ids (merge_batch nb prev)) /\
  (forall i, In i (ids (merge_batch nb prev)) <-> In i (ids prev) \/ In i (ids nb)).
Proof.
  intros Hp Hn. unfold merge_batch, ids in *. rewrite map_app.
  set (f := fun b => negb (existsb (String.eqb (id b)) (map id prev))).
  assert (Hf : forall i, In i (map id (filter f nb)) <-> In i (map id nb) /\ ~ In i (map id prev)).
  { intros i. split.
    - intros Hin. apply in_map_iff in Hin as [x [<- Hx]].
      apply filter_In in Hx as [Hx Fx]. split; [now apply in_map|].
      unfold f in Fx. apply negb_true_iff in Fx. intros Hin.
      apply existsb_seen in Hin. congruence.
    - intros [Hin Hnin]. apply in_map_iff in Hin as [x [<- Hx]].
      apply in_map. apply filter_In. split; [exact Hx|]. unfold f. apply negb_true_iff.
      destruct (existsb (String.eqb (id x)) (map id prev)) eqn:E; [|reflexivity].
      apply existsb_seen in E. contradiction. }
  split.
  - apply NoDup_app; [exact Hp| |].
    + clear Hf. induction nb as [|x nb IH]; simpl; [constructor|].
      inversion Hn as [|? ? Hx Hn']; subst.
      destruct (f x); simpl; [|now apply IH].
      constructor; [|now apply IH]. intros Hin. apply Hx.
      apply in_map_iff in Hin as [y [Hy Hyin]]. apply filter_In in Hyin as [Hyin _].
      rewrite <- Hy. now apply in_map.
    + intros a Ha Hb. apply Hf in Hb as [_ Hb]. contradiction.
  - intros i. rewrite in_app_iff, Hf. split; [intuition|].
    intros [H|H]; [now left|].
    destruct (in_dec String.string_dec i (map id prev)); [now left | right; auto].
Qed.

Lemma admit_all_prefix (location businessType today : string) (clock : nat -> N)
  (ds : list BusinessDiscovery) (st : DiscoveryState) :
  exists added,
    (admit_all location businessType today clock ds st).(ds_store) = st.(ds_store) ++ added.
Proof.
  unfold admit_all. revert st. induction ds as [|d ds IH]; intros st; simpl.
  - exists []. now rewrite app_nil_r.
  - destruct (IH (on_discovery_step location businessType today clock d st)) as [a Ha].
    rewrite Ha. unfold on_discovery_step, onDiscovery.
    destruct (_ || _); simpl.
    + exists a. reflexivity.
    + eexists. rewrite <- app_assoc. reflexivity.
Qed.

(** C2 (counterexample). Two discoveries with the same website and
    different names are two distinct name/website keys, but the store gets
    one candidate: the stream [App]s dedupe on the website alone. *)
Lemma dedupe_name_website_counterexample :
  (d_name (mkDiscovery "Acme Cafe" "https://acme.test"),
   d_website (mkDiscovery "Acme Cafe" "https://acme.test")) <>
  (d_name (mkDiscovery "Acme Coffee Bar" "https://acme.test"),
   d_website (mkDiscovery "Acme Coffee Bar" "https://acme.test")) /\
  length (admit_all "Austin, TX" "Coffee Shops" "2024-06-01" (fun _ => 1700000000000%N)
            [mkDiscovery "Acme Cafe" "https://acme.test";
             mkDiscovery "Acme Coffee Bar" "https://acme.test"]
            (mkDiscoveryState 0 [] [])).(ds_store) = 1.
Proof. split; [discriminate | reflexivity]. Qed.

(** C2 (amended). Stream discovery: from a store with distinct websites
    whose ids were built by [onDiscovery], admitting any sequence of
    discoveries, in any order, leaves a store that extends the old one, has
    exactly one candidate per distinct non-empty website among the old
    records and the discoveries (a repeated website is dropped whatever its
    name), and has distinct ids.  Places batch: a place whose id is already
    in the store is not added; when the batch repeats no id, the ids stay
    distinct and are those of the store and the batch. *)
Theorem dedupe_unique_keys (location businessType today : string) (clock : nat -> N)
  (ds : list BusinessDiscovery) (st : DiscoveryState) :
  admit_inv st ->
  let st' := admit_all location businessType today clock ds st in
  NoDup (websites st'.(ds_store)) /\ NoDup (ids st'.(ds_store)) /\
  (forall w, In w (websites st'.(ds_store)) <->
             In w (websites st.(ds_store)) \/ (w <> "" /\ In w (map d_website ds))) /\
  (exists added, st'.(ds_store) = st.(ds_store) ++ added) /\
  (forall nb prev, NoDup (ids prev) -> NoDup (ids nb) ->
     NoDup (ids (merge_batch nb prev)) /\
     (forall i, In i (ids (merge_batch nb prev)) <-> In i (ids prev) \/ In i (ids nb))).
Proof.
  intros Hinv st'.
  destruct (admit_all_spec location businessType today clock ds st Hinv)
    as [[Hnd [Hid _]] [Hadd Hw]].
  split; [exact Hnd|]. split; [now apply stream_ids_nodup|].
  split; [exact Hw|]. split; [exact Hadd|].
  exact merge_batch_spec.
Qed.

Lemma dedupe_unique_keys_witness :
  admit_inv (mkDiscoveryState 0 [] []) /\
  NoDup (websites (admit_all "Austin, TX" "Coffee Shops" "2024-06-01"
            (fun _ => 1700000000000%N)
            [mkDiscovery "Acme Cafe" "https://acme.test";
             mkDiscovery "Acme Coffee Bar" "https://acme.test";
             mkDiscovery "Beta Bar" "https://beta.test"]
            (mkDiscoveryState 0 [] [])).(ds_store)).
Proof.
  assert (H : admit_inv (mkDiscoveryState 0 [] [])).
  { split; [constructor | split; [constructor | intros a []]]. }
  split; [exact H|].
  apply (dedupe_unique_keys "Austin, TX" "Coffee Shops" "2024-06-01"
           (fun _ => 1700000000000%N)
           [mkDiscovery "Acme Cafe" "https://acme.test";
            mkDiscovery "Acme Coffee Bar" "https://acme.test";
            mkDiscovery "Beta Bar" "https://beta.test"]
           (mkDiscoveryState 0 [] []) H).
Defined.

(* ------------------------------------------------------------------ *)
(** ** Discovery failure *)

(** C5. Discovery failure keeps partial results: when the stream fails
    (a rejected query or a transport error), [handleSearch] resolves with
    the single discovery error banner and loading cleared; the store is the
    one built by admitting the discoveries emitted before the failure (those
    of the complete lines received), which extends the store the search
    started from: nothing is rolled back. *)
Theorem discovery_failure_retains (location businessType today : string)
  (clock : nat -> N) (resp : StreamResponse) (st : AppState) :
  resp_fails resp = true ->
  let st' := handleSearch location businessType today clock resp st in
  st'.(error) = Some discovery_error_msg /\ st'.(isLoading) = false /\
  st'.(businesses) =
    (admit_all location businessType today clock
       (fst (stream_chunks resp.(resp_chunks) EmptyString))
       (mkDiscoveryState 0 [] st.(businesses))).(ds_store) /\
  fst (stream_chunks resp.(resp_chunks) EmptyString) =
    flat_map (fun l => parse_line (JS.trim l))
      (fst (split_nl (String.concat EmptyString resp.(resp_chunks)))) /\
  (exists added, st'.(businesses) = st.(businesses) ++ added).
Proof.
  intros Hf st'. subst st'.
  unfold handleSearch, findBusinessesStream. rewrite Hf. simpl.
  split; [reflexivity|]. split; [reflexivity|]. split; [reflexivity|].
  split.
  - rewrite (stream_chunks_spec (resp_chunks resp) EmptyString eq_refl). reflexivity.
  - apply admit_all_prefix.
Qed.

Lemma discovery_failure_retains_witness :
  resp_fails (mkStreamResponse ["Acme Cafe | https://acme.test";
                                String newline "Beta Bar | https://be"] true) = true /\
  (handleSearch "Austin, TX" "Coffee Shops" "2024-06-01" (fun _ => 1700000000000%N)
     (mkStreamResponse ["Acme Cafe | https://acme.test";
                        String newline "Beta Bar | https://be"] true)
     (mkAppState [sample_business] true "" None)).(error) = Some discovery_error_msg.
Proof.
  split; [reflexivity|].
  apply (discovery_failure_retains "Austin, TX" "Coffee Shops" "2024-06-01"
           (fun _ => 1700000000000%N)
           (mkStreamResponse ["Acme Cafe | https://acme.test";
                              String newline "Beta Bar | https://be"] true)
           (mkAppState [sample_business] true "" None)).
  reflexivity.
Defined.
(* ------------------------------------------------------------------ *)
(** ** White space and case *)

Lemma toLowerCase_app (a b : string) :
  toLowerCase (a ++ b)%string = (toLowerCase a ++ toLowerCase b)%string.
Proof. induction a as [|c a IH]; simpl; [reflexivity | now rewrite IH]. Qed.

Lemma lower_char_ws (c : ascii) : JS.is_ws c = true -> lower_char c = c.
Proof.
  intros H. destruct c as [[] [] [] [] [] [] [] []];
    try (vm_compute in H; discriminate H); reflexivity.
Qed.

Lemma toLowerCase_ws (p : string) : all_ws p = true -> toLowerCase p = p.
Proof.
  induction p as [|c p IH]; simpl; [reflexivity|].
  intros H. apply andb_true_iff in H as [Hc Hp].
  now rewrite lower_char_ws, IH.
Qed.

Lemma trim_start_ws (p x : string) :
  all_ws p = true -> JS.trim_start (p ++ x)%string = JS.trim_start x.
Proof.
  induction p as [|c p IH]; simpl; [reflexivity|].
  intros H. apply andb_true_iff in H as [-> Hp]. now apply IH.
Qed.

Lemma trim_start_all_ws (q : string) : all_ws q = true -> JS.trim_start q = EmptyString.
Proof.
  intros H. rewrite <- (str_app_nil q). rewrite trim_start_ws by exact H. reflexivity.
Qed.

Lemma trim_end_all_ws (q : string) : all_ws q = true -> JS.trim_end q = EmptyString.
Proof.
  induction q as [|c q IH]; simpl; [reflexivity|].
  intros H. apply andb_true_iff in H as [-> Hq]. now rewrite IH.
Qed.

Lemma trim_end_ws (x q : string) :
  all_ws q = true -> JS.trim_end (x ++ q)%string = JS.trim_end x.
Proof.
  intros Hq. induction x as [|c x IH]; simpl; [now apply trim_end_all_ws|].
  now rewrite IH.
Qed.

Lemma trim_start_app (x q : string) :
  JS.trim_start (x ++ q)%string =
    if String.eqb (JS.trim_start x) EmptyString then JS.trim_start q
    else (JS.trim_start x ++ q)%string.
Proof.
  induction x as [|c x IH]; simpl; [reflexivity|].
  destruct (JS.is_ws c); [exact IH | reflexivity].
Qed.

Lemma trim_ws (p s q : string) :
  all_ws p = true -> all_ws q = true ->
  JS.trim (p ++ s ++ q)%string = JS.trim s.
Proof.
  intros Hp Hq. unfold JS.trim. rewrite trim_start_ws by exact Hp.
  rewrite trim_start_app.
  destruct (String.eqb (JS.trim_start s) EmptyString) eqn:E.
  - apply String.eqb_eq in E. rewrite E, trim_start_all_ws by exact Hq. reflexivity.
  - now apply trim_end_ws.
Qed.

(** [s.trim()] is empty exactly for white space. *)
Lemma trim_start_empty (s : string) :
  JS.trim_start s = EmptyString <-> all_ws s = true.
Proof.
  induction s as [|c s IH]; simpl; [tauto|].
  destruct (JS.is_ws c); simpl; [exact IH|]. split; discriminate.
Qed.

Lemma trim_end_nonempty (c : ascii) (r : string) :
  JS.is_ws c = false -> JS.trim_end (String c r) <> EmptyString.
Proof. intros H. simpl. rewrite H. discriminate. Qed.

Lemma trim_start_head (s r : string) (c : ascii) :
  JS.trim_start s = String c r -> JS.is_ws c = false.
Proof.
  induction s as [|d s IH]; simpl; [discriminate|].
  destruct (JS.is_ws d) eqn:D; [exact IH|]. intros [= <- _]. exact D.
Qed.

Lemma truthy_trim (s : string) : JS.truthy (JS.trim s) = negb (all_ws s).
Proof.
  unfold JS.truthy, JS.trim. f_equal.
  destruct (JS.trim_start s) as [|c r] eqn:E.
  - apply trim_start_empty in E. rewrite E. reflexivity.
  - assert (Hc : JS.is_ws c = false) by exact (trim_start_head s r c E).
    destruct (all_ws s) eqn:A.
    + apply trim_start_empty in A. congruence.
    + apply String.eqb_neq. now apply trim_end_nonempty.
Qed.

Lemma trim_end_idem (s : string) : JS.trim_end (JS.trim_end s) = JS.trim_end s.
Proof.
  induction s as [|c s IH]; simpl; [reflexivity|].
  destruct (JS.is_ws c && String.eqb (JS.trim_end s) EmptyString) eqn:E;
    [reflexivity|].
  simpl. rewrite IH, E. reflexivity.
Qed.

Lemma trim_start_trim_end (s : string) :
  JS.trim_start (JS.trim_end (JS.trim_start s)) = JS.trim_end (JS.trim_start s).
Proof.
  destruct (JS.trim_start s) as [|c r] eqn:E; [reflexivity|].
  pose proof (trim_start_head s r c E) as Hc. simpl. rewrite Hc. simpl.
  rewrite Hc. reflexivity.
Qed.

(** [s.trim().trim() = s.trim()] *)
Lemma trim_idem (s : string) : JS.trim (JS.trim s) = JS.trim s.
Proof. unfold JS.trim at 1 2. rewrite trim_start_trim_end. apply trim_end_idem. Qed.

(** X1. [getPlaceTypes] ignores white space around the business type and
    the case of its letters. *)
Theorem getPlaceTypes_space_case_insensitive (p q s t : string) :
  all_ws p = true -> all_ws q = true -> toLowerCase s = toLowerCase t ->
  getPlaceTypes (p ++ s ++ q)%string = getPlaceTypes t.
Proof.
  intros Hp Hq Hst. unfold getPlaceTypes, normalize_type.
  rewrite !toLowerCase_app, (toLowerCase_ws p Hp), (toLowerCase_ws q Hq).
  rewrite trim_ws by assumption. now rewrite Hst.
Qed.

Lemma getPlaceTypes_space_case_insensitive_witness :
  all_ws " " = true /\ all_ws "  " = true /\
  toLowerCase "Coffee SHOP" = toLowerCase "coffee shop" /\
  getPlaceTypes (" " ++ "Coffee SHOP" ++ "  ")%string = getPlaceTypes "coffee shop".
Proof.
  split; [reflexivity|]. split; [reflexivity|]. split; [reflexivity|].
  apply (getPlaceTypes_space_case_insensitive " " "  " "Coffee SHOP" "coffee shop");
    reflexivity.
Defined.

(** X2. The search form submits only when neither input is blank, and
    then passes the inputs as typed (untrimmed). *)
Theorem handleSubmit_blank (location businessType numResults : string) :
  handleSubmit location businessType numResults =
    if all_ws location || all_ws businessType then None
    else Some (location, businessType, numResults).
Proof.
  unfold handleSubmit. rewrite !truthy_trim.
  destruct (all_ws location), (all_ws businessType); reflexivity.
Qed.

(* ------------------------------------------------------------------ *)
(** ** The Places service *)

Lemma PLACE_TYPES_nonempty : Forall (fun e => snd e <> []) PLACE_TYPES.
Proof. repeat constructor; discriminate. Qed.

(** Every value of the lookup has a non-zero [length] and a first
    element when it is an array. *)
Lemma lookup_place_types_length (key : string) (v : TypesValue) :
  lookup_place_types key = Some v -> types_length v <> Some 0.
Proof.
  unfold lookup_place_types.
  destruct (find (fun e => String.eqb (fst e) key) PLACE_TYPES) as [[k l]|] eqn:F.
  - intros [= <-]. apply find_some in F as [Hin _].
    pose proof (proj1 (Forall_forall _ _) PLACE_TYPES_nonempty _ Hin) as Hl.
    simpl in Hl |- *.
    destruct l; [contradiction | discriminate].
  - destruct (String.eqb key "constructor"); [intros [= <-]; discriminate|].
    destruct (String.eqb key "__proto__"); [intros [= <-]; discriminate | discriminate].
Qed.

Lemma getPlaceTypes_unknown (bt : string) :
  lookup_place_types (normalize_type bt) = None -> getPlaceTypes bt = TypeList [].
Proof. unfold getPlaceTypes. now intros ->. Qed.

Lemma getPlaceTypes_known (bt : string) (v : TypesValue) :
  lookup_place_types (normalize_type bt) = Some v -> getPlaceTypes bt = v.
Proof. unfold getPlaceTypes. now intros ->. Qed.

(** X3. A circle search is refused with the not-supported error, before
    the API key is checked and without any request, exactly when the
    normalized business type has no entry in [PLACE_TYPES]; otherwise a
    Nearby Search request is built. *)
Theorem circle_search_unsupported (bt : string) (area : SearchArea) (c : Circle)
  (maxResults : num) :
  sa_type area = AreaCircle -> sa_circle area = Some c ->
  (lookup_place_types (normalize_type bt) = None ->
     forall apiKey reply s,
       searchPlacesInArea apiKey bt area maxResults reply s =
         (Err (unsupported_msg bt), s)) /\
  (lookup_place_types (normalize_type bt) <> None ->
     exists body, search_request bt area maxResults = Ok (Some (SearchNearby body))).
Proof.
  intros Ht Hc. split.
  - intros Hl apiKey reply s. unfold searchPlacesInArea, search_request.
    rewrite Ht, Hc, (getPlaceTypes_unknown bt Hl). reflexivity.
  - intros Hl. destruct (lookup_place_types (normalize_type bt)) as [v|] eqn:L;
      [|contradiction].
    pose proof (lookup_place_types_length _ _ L) as Hlen.
    unfold search_request. rewrite Ht, Hc, (getPlaceTypes_known bt v L).
    destruct (types_length v) as [[|n]|]; [contradiction | eexists; reflexivity
                                           | eexists; reflexivity].
Qed.

Lemma circle_search_unsupported_witness :
  sa_type (mkSearchArea AreaCircle (Some (mkCircle (30, -97)%Z 1000)) None) = AreaCircle /\
  sa_circle (mkSearchArea AreaCircle (Some (mkCircle (30, -97)%Z 1000)) None) =
    Some (mkCircle (30, -97)%Z 1000) /\
  (lookup_place_types (normalize_type "Plumbers") = None ->
     forall apiKey reply s,
       searchPlacesInArea apiKey "Plumbers"
         (mkSearchArea AreaCircle (Some (mkCircle (30, -97)%Z 1000)) None) (Some 10%Z)
         reply s = (Err (unsupported_msg "Plumbers"), s)) /\
  (lookup_place_types (normalize_type "Plumbers") <> None ->
     exists body, search_request "Plumbers"
       (mkSearchArea AreaCircle (Some (mkCircle (30, -97)%Z 1000)) None) (Some 10%Z) =
       Ok (Some (SearchNearby body))).
Proof.
  split; [reflexivity|]. split; [reflexivity|].
  apply (circle_search_unsupported "Plumbers"
           (mkSearchArea AreaCircle (Some (mkCircle (30, -97)%Z 1000)) None)
           (mkCircle (30, -97)%Z 1000) (Some 10%Z)); reflexivity.
Defined.

(** X4. A rectangle search is never refused: it always sends a Text
    Search for the business type as typed; a type with no entry in
    [PLACE_TYPES] goes without type filter, a type of the table is
    filtered strictly on its first place type. *)
Theorem rectangle_search_request (bt : string) (area : SearchArea) (r : Rectangle)
  (maxResults : num) :
  sa_type area = AreaRectangle -> sa_rectangle area = Some r ->
  exists body,
    search_request bt area maxResults = Ok (Some (SearchText body)) /\
    textQuery body = bt /\ text_rectangle body = r /\
    (lookup_place_types (normalize_type bt) = None ->
       includedType body = None /\ strictTypeFiltering body = false) /\
    (forall l, lookup_place_types (normalize_type bt) = Some (TypeList l) ->
       includedType body = hd_error l /\ strictTypeFiltering body = true).
Proof.
  intros Ht Hr. unfold search_request. rewrite Ht, Hr.
  eexists. split; [reflexivity|]. simpl. split; [reflexivity|]. split; [reflexivity|].
  split.
  - intros Hl. rewrite (getPlaceTypes_unknown bt Hl). split; reflexivity.
  - intros l Hl. pose proof (lookup_place_types_length _ _ Hl) as Hlen.
    rewrite (getPlaceTypes_known bt _ Hl). simpl in Hlen |- *.
    destruct l; [contradiction | split; reflexivity].
Qed.

Lemma rectangle_search_request_witness :
  sa_type (mkSearchArea AreaRectangle None (Some (mkRectangle (30, -98)%Z (31, -97)%Z)))
    = AreaRectangle /\
  sa_rectangle (mkSearchArea AreaRectangle None (Some (mkRectangle (30, -98)%Z (31, -97)%Z)))
    = Some (mkRectangle (30, -98)%Z (31, -97)%Z) /\
  exists body,
    search_request "Food"
      (mkSearchArea AreaRectangle None (Some (mkRectangle (30, -98)%Z (31, -97)%Z)))
      (Some 5%Z) = Ok (Some (SearchText body)) /\
    textQuery body = "Food" /\ text_rectangle body = mkRectangle (30, -98)%Z (31, -97)%Z /\
    (lookup_place_types (normalize_type "Food") = None ->
       includedType body = None /\ strictTypeFiltering body = false) /\
    (forall l, lookup_place_types (normalize_type "Food") = Some (TypeList l) ->
       includedType body = hd_error l /\ strictTypeFiltering body = true).
Proof.
  split; [reflexivity|]. split; [reflexivity|].
  apply (rectangle_search_request "Food"
           (mkSearchArea AreaRectangle None (Some (mkRectangle (30, -98)%Z (31, -97)%Z)))
           (mkRectangle (30, -98)%Z (31, -97)%Z) (Some 5%Z)); reflexivity.
Defined.

(** X5. A search request never asks for more than 20 results (the API
    limit), and the [ALL] choice asks for exactly 20. *)
Theorem search_request_count (numResults bt : string) (area : SearchArea)
  (req : PlacesRequest) :
  search_request bt area (maxResults_of numResults) = Ok (Some req) ->
  (forall n, request_count req = Some n -> (n <= 20)%Z) /\
  (numResults = "ALL" -> request_count req = Some 20%Z).
Proof.
  intros H.
  assert (Hc : request_count req = math_min (maxResults_of numResults) (Some 20%Z)).
  { unfold search_request in H.
    destruct (sa_type area), (sa_circle area), (sa_rectangle area);
      try discriminate H;
      try (destruct (types_length (getPlaceTypes bt)) as [[|]|]; try discriminate H);
      injection H as <-; reflexivity. }
  rewrite Hc. split.
  - intros n. destruct (maxResults_of numResults) as [m|]; simpl; [|discriminate].
    intros [= <-]. apply Z.le_min_r.
  - intros ->. reflexivity.
Qed.

Lemma search_request_count_witness :
  search_request "gym" (mkSearchArea AreaCircle (Some (mkCircle (30, -97)%Z 500)) None)
    (maxResults_of "ALL") =
    Ok (Some (SearchNearby (mkNearbyBody (JArray ["gym"]) (mkCircle (30, -97)%Z 500)
                             (Some 20%Z)))) /\
  (forall n, request_count (SearchNearby (mkNearbyBody (JArray ["gym"])
                              (mkCircle (30, -97)%Z 500) (Some 20%Z))) = Some n ->
             (n <= 20)%Z) /\
  ("ALL" = "ALL" -> request_count (SearchNearby (mkNearbyBody (JArray ["gym"])
                       (mkCircle (30, -97)%Z 500) (Some 20%Z))) = Some 20%Z).
Proof.
  split; [vm_compute; reflexivity|].
  apply (search_request_count "ALL" "gym"
           (mkSearchArea AreaCircle (Some (mkCircle (30, -97)%Z 500)) None)).
  vm_compute. reflexivity.
Defined.

(* ------------------------------------------------------------------ *)
(** ** The search of the Places [App] *)

Lemma makePlacesRequest_store {J : Type} (k : option string) (r : Reply J) (s : Store) :
  snd (makePlacesRequest k r s) = s.
Proof.
  unfold makePlacesRequest. destruct (key_missing k); [reflexivity|].
  destruct r; reflexivity.
Qed.

Lemma searchPlacesInArea_store (k : option string) (bt : string) (area : SearchArea)
  (mx : num) (reply : PlacesRequest -> Reply (option (list RawPlace))) (s : Store) :
  snd (searchPlacesInArea k bt area mx reply s) = s.
Proof.
  unfold searchPlacesInArea. destruct (search_request bt area mx) as [[req|]|e];
    try reflexivity.
  unfold bind. pose proof (makePlacesRequest_store k (reply req) s) as H.
  destruct (makePlacesRequest k (reply req) s) as [[j|e] s']; simpl in H |- *;
    now subst.
Qed.

Lemma map_opt_spec {A B : Type} (f : A -> option B) (l : list A) (l' : list B) :
  map_opt f l = Some l' -> Forall (fun y => exists x, In x l /\ f x = Some y) l'.
Proof.
  revert l'. induction l as [|x l IH]; intros l' H; simpl in H.
  - injection H as <-. constructor.
  - destruct (f x) as [y|] eqn:Fx; [|discriminate].
    destruct (map_opt f l) as [ys|]; [|discriminate].
    injection H as <-. constructor.
    + exists x. split; [now left | exact Fx].
    + eapply Forall_impl; [|exact (IH ys eq_refl)].
      intros z [w [Hw Hz]]. exists w. split; [now right | exact Hz].
Qed.

(** The records [merge_batch] appends are new records whose id is not
    in the store. *)
Lemma merge_batch_added (nb prev : Store) :
  merge_batch nb prev = prev ++ filter (fun b => negb (existsb (String.eqb b.(id)) (ids prev))) nb /\
  Forall (fun b => In b nb /\ ~ In b.(id) (ids prev))
    (filter (fun b => negb (existsb (String.eqb b.(id)) (ids prev))) nb).
Proof.
  split; [reflexivity|]. apply Forall_forall. intros b Hb.
  apply filter_In in Hb as [Hb F]. split; [exact Hb|].
  intros Hin. apply existsb_seen in Hin. rewrite Hin in F. discriminate.
Qed.

(** X6. Without a Google Maps API key, a search of the Places [App] on an
    area that has the shape its type names ends with the error banner, an
    empty message, loading off and the records unchanged. *)
Theorem handleSearch_places_no_key (apiKey : option string)
  (searchLocation searchType numResults today : string) (area : SearchArea)
  (reply : PlacesRequest -> Reply (option (list RawPlace))) (st : AppState) :
  key_missing apiKey = true ->
  (sa_type area = AreaCircle /\ sa_circle area <> None) \/
  (sa_type area = AreaRectangle /\ sa_rectangle area <> None) ->
  handleSearch_places apiKey searchLocation searchType numResults today area reply st =
    mkAppState st.(businesses) false "" (Some discovery_error_msg).
Proof.
  intros Hk Harea. unfold handleSearch_places, bind, searchPlacesInArea.
  destruct (search_request searchType area (maxResults_of numResults)) as [[req|]|e] eqn:R.
  - unfold makePlacesRequest. rewrite Hk. reflexivity.
  - exfalso. unfold search_request in R.
    destruct Harea as [[Ht Hc]|[Ht Hr]]; rewrite Ht in R.
    + destruct (sa_circle area); [|contradiction].
      destruct (types_length (getPlaceTypes searchType)) as [[|]|]; discriminate R.
    + destruct (sa_rectangle area); [discriminate R | contradiction].
  - reflexivity.
Qed.

Lemma handleSearch_places_no_key_witness :
  key_missing None = true /\
  ((sa_type (mkSearchArea AreaCircle (Some (mkCircle (30, -97)%Z 1000)) None) = AreaCircle /\
    sa_circle (mkSearchArea AreaCircle (Some (mkCircle (30, -97)%Z 1000)) None) <> None) \/
   (sa_type (mkSearchArea AreaCircle (Some (mkCircle (30, -97)%Z 1000)) None) = AreaRectangle /\
    sa_rectangle (mkSearchArea AreaCircle (Some (mkCircle (30, -97)%Z 1000)) None) <> None)) /\
  handleSearch_places None "Austin, TX" "coffee shop" "10" "2024-05-01"
    (mkSearchArea AreaCircle (Some (mkCircle (30, -97)%Z 1000)) None)
    (fun _ => OkJson None) (mkAppState [sample_business] true "" None) =
    mkAppState [sample_business] false "" (Some discovery_error_msg).
Proof.
  split; [reflexivity|]. split; [left; split; [reflexivity | discriminate]|].
  apply (handleSearch_places_no_key None "Austin, TX" "coffee shop" "10" "2024-05-01"
           (mkSearchArea AreaCircle (Some (mkCircle (30, -97)%Z 1000)) None)
           (fun _ => OkJson None) (mkAppState [sample_business] true "" None)).
  - reflexivity.
  - left. split; [reflexivity | discriminate].
Defined.

(** X7. Whatever the answers, a search of the Places [App] keeps every
    record it had, in order, and only appends records: each is a
    Discovered record, not researching, with coordinates, tagged with the
    search's location and type, and with an id not already in the store;
    loading is off at the end. *)
Theorem handleSearch_places_appends (apiKey : option string)
  (searchLocation searchType numResults today : string) (area : SearchArea)
  (reply : PlacesRequest -> Reply (option (list RawPlace))) (st : AppState) :
  let st' := handleSearch_places apiKey searchLocation searchType numResults today
               area reply st in
  st'.(isLoading) = false /\
  exists added, st'.(businesses) = st.(businesses) ++ added /\
    Forall (fun b => b.(status) = DISCOVERED /\ b.(isResearching) = false /\
                     b.(lat) <> None /\ b.(lng) <> None /\
                     b.(areaSearched) = searchLocation /\ b.(businessType) = searchType /\
                     ~ In b.(id) (ids st.(businesses))) added.
Proof.
  cbv zeta. unfold handleSearch_places, bind.
  pose proof (searchPlacesInArea_store apiKey searchType area (maxResults_of numResults)
                reply st.(businesses)) as Hs.
  destruct (searchPlacesInArea apiKey searchType area (maxResults_of numResults) reply
              st.(businesses)) as [[places|e] s] eqn:E; simpl in Hs; subst s.
  - destruct (map_opt (business_of_place searchLocation searchType today) places)
      as [nb|] eqn:Mo.
    + simpl. split; [reflexivity|].
      destruct (merge_batch_added nb st.(businesses)) as [-> Hf].
      eexists. split; [reflexivity|].
      pose proof (map_opt_spec _ _ _ Mo) as Hnb.
      eapply Forall_impl; [|exact Hf]. intros b [Hin Hid].
      rewrite Forall_forall in Hnb. destruct (Hnb b Hin) as [p [_ Hp]].
      unfold business_of_place in Hp. destruct (place_location p) as [[la ln]|];
        [|discriminate]. injection Hp as <-. simpl in Hid |- *.
      repeat split; try discriminate; exact Hid.
    + simpl. split; [reflexivity|]. exists []. split; [now rewrite app_nil_r | constructor].
  - simpl. split; [reflexivity|]. exists []. split; [now rewrite app_nil_r | constructor].
Qed.

(** X15. When the Places search resolves and every place has a location,
    the Places [App]'s search clears the error and reports the number of
    places the API returned (duplicates of stored ids included, though
    they are not added), and the store becomes the [merge_batch] of the
    converted places. *)
Theorem handleSearch_places_found (apiKey : option string)
  (searchLocation searchType numResults today : string) (area : SearchArea)
  (reply : PlacesRequest -> Reply (option (list RawPlace))) (st : AppState)
  (places : list PlaceSearchResult) (nb : Store) :
  fst (searchPlacesInArea apiKey searchType area (maxResults_of numResults) reply
         st.(businesses)) = Ok places ->
  map_opt (business_of_place searchLocation searchType today) places = Some nb ->
  handleSearch_places apiKey searchLocation searchType numResults today area reply st =
    mkAppState (merge_batch nb st.(businesses)) false (found_msg (length places)) None.
Proof.
  intros Hs Hm. unfold handleSearch_places, bind.
  pose proof (searchPlacesInArea_store apiKey searchType area (maxResults_of numResults)
                reply st.(businesses)) as Hst.
  destruct (searchPlacesInArea apiKey searchType area (maxResults_of numResults) reply
              st.(businesses)) as [r s]. simpl in Hs, Hst. subst r s.
  rewrite Hm. reflexivity.
Qed.

Lemma handleSearch_places_found_witness :
  fst (searchPlacesInArea (Some "key") "coffee shop"
         (mkSearchArea AreaCircle (Some (mkCircle (30, -97)%Z 1000)) None)
         (maxResults_of "10")
         (fun _ => OkJson (Some [mkRawPlace "1700000000000-https://acme.test"
                                  (Some "Acme Cafe") (Some (30, -97)%Z) None None]))
         [sample_business]) =
    Ok [mkPlace "1700000000000-https://acme.test" "Acme Cafe" (Some (30, -97)%Z) ""
          (Some "") None None] /\
  map_opt (business_of_place "Austin, TX" "coffee shop" "2024-05-01")
    [mkPlace "1700000000000-https://acme.test" "Acme Cafe" (Some (30, -97)%Z) ""
       (Some "") None None] =
    Some [{| id := "1700000000000-https://acme.test"; discoveryName := "Acme Cafe";
             discoveryWebsite := ""; companyName := "Acme Cafe"; contactName := "";
             address := ""; phone := ""; email := ""; description := "";
             status := DISCOVERED; dateFound := "2024-05-01"; emailThreadId := "N/A";
             isResearching := false; areaSearched := "Austin, TX";
             businessType := "coffee shop"; lat := Some 30%Z; lng := Some (-97)%Z |}] /\
  handleSearch_places (Some "key") "Austin, TX" "coffee shop" "10" "2024-05-01"
    (mkSearchArea AreaCircle (Some (mkCircle (30, -97)%Z 1000)) None)
    (fun _ => OkJson (Some [mkRawPlace "1700000000000-https://acme.test"
                             (Some "Acme Cafe") (Some (30, -97)%Z) None None]))
    (mkAppState [sample_business] true "" None) =
    mkAppState (merge_batch
      [{| id := "1700000000000-https://acme.test"; discoveryName := "Acme Cafe";
          discoveryWebsite := ""; companyName := "Acme Cafe"; contactName := "";
          address := ""; phone := ""; email := ""; description := "";
          status := DISCOVERED; dateFound := "2024-05-01"; emailThreadId := "N/A";
          isResearching := false; areaSearched := "Austin, TX";
          businessType := "coffee shop"; lat := Some 30%Z; lng := Some (-97)%Z |}]
      [sample_business]) false (found_msg 1) None.
Proof.
  split; [vm_compute; reflexivity|]. split; [vm_compute; reflexivity|].
  apply (handleSearch_places_found (Some "key") "Austin, TX" "coffee shop" "10" "2024-05-01"
    (mkSearchArea AreaCircle (Some (mkCircle (30, -97)%Z 1000)) None)
    (fun _ => OkJson (Some [mkRawPlace "1700000000000-https://acme.test"
                             (Some "Acme Cafe") (Some (30, -97)%Z) None None]))
    (mkAppState [sample_business] true "" None)
    [mkPlace "1700000000000-https://acme.test" "Acme Cafe" (Some (30, -97)%Z) ""
       (Some "") None None]); vm_compute; reflexivity.
Defined.

(* ------------------------------------------------------------------ *)
(** ** Enrichment, retry and Research All in the Places [App] *)

Lemma Forall2_update_by_id (R : Business -> Business -> Prop) (bid : string)
  (f : Business -> Business) (s : Store) :
  (forall x, x.(id) = bid -> R x (f x)) -> (forall x, x.(id) <> bid -> R x x) ->
  Forall2 R s (update_by_id bid f s).
Proof.
  intros Hf Hx. induction s as [|x s IH]; constructor; [|exact IH].
  destruct (String.eqb (id x) bid) eqn:E.
  - apply String.eqb_eq in E. now apply Hf.
  - apply String.eqb_neq in E. now apply Hx.
Qed.

Lemma Forall2_compose (R1 R2 R3 : Business -> Business -> Prop) (a b c : Store) :
  (forall x y z, R1 x y -> R2 y z -> R3 x z) ->
  Forall2 R1 a b -> Forall2 R2 b c -> Forall2 R3 a c.
Proof.
  intros H Hab. revert c. induction Hab as [|x y a b Hxy _ IH]; intros c Hbc.
  - inversion Hbc. constructor.
  - inversion Hbc as [|y' z b' c' Hyz Hbc']; subst. constructor; eauto.
Qed.

(** Whatever the answers, the enrichment of the Places [App] resolves and
    rewrites the records of the business's id with an update that keeps
    their identity fields and ends their research. *)
Lemma process_places_shape (k : option string) (business : Business)
  (ans : PlacesEnrichAnswers) (s : Store) :
  exists g, (forall x, (g x).(isResearching) = false /\
                       identity_fields (g x) = identity_fields x) /\
    processResearchAndGeocoding_places k business ans s =
      (Ok tt, update_by_id business.(id) g s).
Proof.
  unfold processResearchAndGeocoding_places, try_catch, bind, getPlaceDetails,
    makePlaceDetailsRequest, bind.
  destruct (key_missing k);
    [exists (mark_failed "Research failed."); split; [intros; split; reflexivity | reflexivity]|].
  destruct (details_reply ans) as [e|st t|det];
    try (exists (mark_failed "Research failed."); split;
         [intros; split; reflexivity | reflexivity]).
  simpl. destruct (research_reply ans) as [d|e].
  - eexists. split; [|reflexivity]. intros x. split; reflexivity.
  - exists (mark_failed "Research failed."). split; [intros; split; reflexivity | reflexivity].
Qed.

(** X8. When the details call and the research call of the Places [App]
    both succeed, the records of the business's id take the research
    answer's company, contact, email and description, but their phone and
    address become the Places values when these are non-empty and stay as
    they were otherwise: the research answer's phone and address are never
    stored.  Other records are untouched. *)
Theorem places_enrichment_merge (apiKey : option string) (business : Business)
  (ans : PlacesEnrichAnswers) (det : RawDetails) (d : ResearchedBusinessData) (s : Store) :
  key_missing apiKey = false -> details_reply ans = OkJson det ->
  research_reply ans = Ok d ->
  let r := processResearchAndGeocoding_places apiKey business ans s in
  fst r = Ok tt /\
  Forall2 (fun x x' =>
    (x.(id) = business.(id) ->
       x'.(phone) = or_else (or_empty det.(det_nationalPhoneNumber)) x.(phone) /\
       x'.(address) = or_else (or_empty det.(det_formattedAddress)) x.(address) /\
       x'.(companyName) = d.(r_companyName) /\ x'.(contactName) = d.(r_contactName) /\
       x'.(email) = d.(r_email) /\ x'.(description) = d.(r_description) /\
       x'.(isResearching) = false /\ identity_fields x' = identity_fields x) /\
    (x.(id) <> business.(id) -> x' = x)) s (snd r).
Proof.
  intros Hk Hd Hr. cbv zeta.
  unfold processResearchAndGeocoding_places, try_catch, bind, getPlaceDetails,
    makePlaceDetailsRequest, bind.
  rewrite Hk, Hd, Hr. simpl. split; [reflexivity|].
  apply Forall2_update_by_id.
  - intros x Hx. split; [|contradiction]. intros _.
    repeat split; reflexivity.
  - intros x Hx. split; [contradiction | reflexivity].
Qed.

Lemma places_enrichment_merge_witness :
  key_missing (Some "key") = false /\
  details_reply (mkPlacesEnrichAnswers
    (OkJson (mkRawDetails (Some "Acme Cafe") None None (Some "1 Main St") None None))
    (Ok (mkResearched "Acme Cafe LLC" "Ann Lee" "2 Side St" "555-0000"
           "ann@acme.test" "A cafe."))) =
    OkJson (mkRawDetails (Some "Acme Cafe") None None (Some "1 Main St") None None) /\
  research_reply (mkPlacesEnrichAnswers
    (OkJson (mkRawDetails (Some "Acme Cafe") None None (Some "1 Main St") None None))
    (Ok (mkResearched "Acme Cafe LLC" "Ann Lee" "2 Side St" "555-0000"
           "ann@acme.test" "A cafe."))) =
    Ok (mkResearched "Acme Cafe LLC" "Ann Lee" "2 Side St" "555-0000"
          "ann@acme.test" "A cafe.") /\
  fst (processResearchAndGeocoding_places (Some "key") sample_business
    (mkPlacesEnrichAnswers
      (OkJson (mkRawDetails (Some "Acme Cafe") None None (Some "1 Main St") None None))
      (Ok (mkResearched "Acme Cafe LLC" "Ann Lee" "2 Side St" "555-0000"
             "ann@acme.test" "A cafe.")))
    [sample_business]) = Ok tt.
Proof.
  split; [reflexivity|]. split; [reflexivity|]. split; [reflexivity|].
  apply (places_enrichment_merge (Some "key") sample_business
    (mkPlacesEnrichAnswers
      (OkJson (mkRawDetails (Some "Acme Cafe") None None (Some "1 Main St") None None))
      (Ok (mkResearched "Acme Cafe LLC" "Ann Lee" "2 Side St" "555-0000"
             "ann@acme.test" "A cafe.")))
    (mkRawDetails (Some "Acme Cafe") None None (Some "1 Main St") None None)
    (mkResearched "Acme Cafe LLC" "Ann Lee" "2 Side St" "555-0000" "ann@acme.test" "A cafe.")
    [sample_business]); reflexivity.
Defined.

(** X9. When the details call of the Places [App] fails (no Google Maps
    key, a rejected fetch or an HTTP error), the enrichment never reaches
    the research call: it resolves, and the records of the business's id
    record [Research failed.] with every other field kept; other records
    are untouched. *)
Theorem places_enrichment_details_failure (apiKey : option string) (business : Business)
  (ans : PlacesEnrichAnswers) (s : Store) :
  key_missing apiKey = true \/ (forall det, details_reply ans <> OkJson det) ->
  let r := processResearchAndGeocoding_places apiKey business ans s in
  fst r = Ok tt /\ records_failure business.(id) "Research failed." s (snd r).
Proof.
  intros H. cbv zeta.
  assert (E : processResearchAndGeocoding_places apiKey business ans s =
              (Ok tt, update_by_id business.(id) (mark_failed "Research failed.") s)).
  { unfold processResearchAndGeocoding_places, try_catch, bind, getPlaceDetails,
      makePlaceDetailsRequest, bind.
    destruct (key_missing apiKey); [reflexivity|].
    destruct H as [H|H]; [discriminate H|].
    destruct (details_reply ans) as [e|st t|det]; [reflexivity | reflexivity|].
    exfalso. now apply (H det). }
  rewrite E. split; [reflexivity|].
  apply update_failure. intros x. repeat split.
Qed.

Lemma places_enrichment_details_failure_witness :
  (key_missing (Some "key") = true \/
   (forall det, details_reply (mkPlacesEnrichAnswers (NotOk 403 "PERMISSION_DENIED")
      (Ok (mkResearched "Acme Cafe LLC" "Ann Lee" "1 Main St" "555-1234"
             "ann@acme.test" "A cafe."))) <> OkJson det)) /\
  fst (processResearchAndGeocoding_places (Some "key") sample_business
         (mkPlacesEnrichAnswers (NotOk 403 "PERMISSION_DENIED")
            (Ok (mkResearched "Acme Cafe LLC" "Ann Lee" "1 Main St" "555-1234"
                   "ann@acme.test" "A cafe.")))
         [sample_business]) = Ok tt.
Proof.
  split; [right; intros det; discriminate|].
  apply (places_enrichment_details_failure (Some "key") sample_business
           (mkPlacesEnrichAnswers (NotOk 403 "PERMISSION_DENIED")
              (Ok (mkResearched "Acme Cafe LLC" "Ann Lee" "1 Main St" "555-1234"
                     "ann@acme.test" "A cafe.")))
           [sample_business]).
  right. intros det. discriminate.
Defined.

(** The relation a run of the loop keeps between the records before and
    after it, for the records targeted by the ids [tids]. *)
Definition settled_by (tids : list string) (x x' : Business) : Prop :=
  (In x.(id) tids -> x'.(isResearching) = false) /\
  (~ In x.(id) tids -> x' = x) /\
  identity_fields x' = identity_fields x.

Lemma research_loop_spec (k : option string) (answers : nat -> PlacesEnrichAnswers)
  (toResearch : list Business) (i : nat) (s : Store) :
  fst (research_loop k answers i toResearch s) = Ok tt /\
  Forall2 (settled_by (ids toResearch)) s (snd (research_loop k answers i toResearch s)).
Proof.
  revert i s. induction toResearch as [|b rest IH]; intros i s; simpl.
  - split; [reflexivity|]. induction s as [|x s IHs]; constructor; [|exact IHs].
    split; [intros []|]. split; reflexivity.
  - destruct (process_places_shape k (mark_researching b) (answers i)
                (update_by_id b.(id) mark_researching s)) as [g [Hg Hp]].
    assert (Estep : research_loop k answers i (b :: rest) s =
                research_loop k answers (S i) rest
                  (update_by_id (id b) g (update_by_id (id b) mark_researching s))).
    { cbn [research_loop]. unfold bind, setBusinesses. cbv beta iota.
      rewrite Hp. reflexivity. }
    cbn [research_loop] in Estep. rewrite Estep. simpl ids.
    destruct (IH (S i) (update_by_id (id b) g (update_by_id (id b) mark_researching s)))
      as [Hok Hrel].
    split; [exact Hok|].
    assert (Hs2 : update_by_id (id b) g (update_by_id (id b) mark_researching s) =
                  update_by_id (id b) (fun x => g (mark_researching x)) s)
      by (apply update_by_id_compose; reflexivity).
    eapply (Forall2_compose _ _ _ s
              (update_by_id (id b) g (update_by_id (id b) mark_researching s)));
      [| rewrite Hs2; apply (Forall2_update_by_id
        (fun x y => (x.(id) = b.(id) -> y.(isResearching) = false) /\
                    (x.(id) <> b.(id) -> y = x) /\
                    identity_fields y = identity_fields x) b.(id)
        (fun x => g (mark_researching x)) s) | exact Hrel].
    + intros x y z [H1 [H2 H3]] [H4 [H5 H6]].
      assert (Hyz : id y = id x) by (injection H3; intros; assumption).
      split; [|split].
      * intros [E|E].
        -- destruct (in_dec String.string_dec (id x) (ids rest)) as [Hin|Hnin].
           ++ apply H4. now rewrite Hyz.
           ++ rewrite H5 by now rewrite Hyz. apply H1. now symmetry.
        -- apply H4. now rewrite Hyz.
      * intros Hn. assert (Hb : id x <> id b) by (intros E; apply Hn; now left).
        rewrite H5 by (rewrite Hyz; intros E; apply Hn; now right).
        now apply H2.
      * now rewrite H6, H3.
    + intros x Hx. split; [intros _; apply Hg|]. split; [contradiction|].
      rewrite (proj2 (Hg (mark_researching x))). reflexivity.
    + intros x Hx. split; [contradiction|]. split; reflexivity.
Qed.

(** X10. Research All (Places [App]) resolves, and afterwards no record
    whose id is that of an eligible record (not researching, status
    Discovered) is still researching; no record changes its id, names,
    website, status, date, thread id, search tags or coordinates; records
    of other ids are untouched. *)
Theorem researchAll_settles (apiKey : option string) (answers : nat -> PlacesEnrichAnswers)
  (s : Store) :
  let r := researchAll apiKey answers s s in
  fst r = Ok tt /\
  Forall2 (fun x x' =>
    (In x.(id) (ids (filter research_all_target s)) -> x'.(isResearching) = false) /\
    (~ In x.(id) (ids (filter research_all_target s)) -> x' = x) /\
    identity_fields x' = identity_fields x) s (snd r).
Proof. apply research_loop_spec. Qed.

(** X11. A retry in the Places [App] never changes the date found of a
    record (the new date goes into the copy handed to the enrichment,
    which stores nothing from it), nor its id, status, names, website or
    coordinates; when the id is known, its records end not researching. *)
Theorem retry_places_keeps_date (apiKey : option string) (today : string)
  (businesses : Store) (businessId : string) (ans : PlacesEnrichAnswers) (s : Store) :
  let r := handleRetryResearch_places apiKey today businesses businessId ans s in
  fst r = Ok tt /\
  Forall2 (fun x x' =>
    identity_fields x' = identity_fields x /\
    (x.(id) = businessId -> find_by_id businessId businesses <> None ->
       x'.(isResearching) = false)) s (snd r).
Proof.
  cbv zeta. unfold handleRetryResearch_places.
  destruct (find_by_id businessId businesses) as [bt|] eqn:F.
  - destruct (find_by_id_id _ _ _ F) as [Hid _].
    destruct (process_places_shape apiKey (with_date today bt) ans
                (update_by_id businessId mark_researching s)) as [g [Hg Hp]].
    unfold bind, setBusinesses. cbv beta iota. rewrite Hp. cbn [fst snd].
    split; [reflexivity|].
    replace (id (with_date today bt)) with businessId by (simpl; now symmetry).
    rewrite update_by_id_compose by reflexivity.
    apply Forall2_update_by_id.
    + intros x _. split; [apply (proj2 (Hg (mark_researching x)))|].
      intros _ _. apply Hg.
    + intros x Hx. split; [reflexivity|]. intros E. contradiction.
  - simpl. split; [reflexivity|]. induction s as [|x s IHs]; constructor; [|exact IHs].
    split; [reflexivity|]. intros _ N. now contradiction N.
Qed.

(* ------------------------------------------------------------------ *)
(** ** Coordinates in the map [App] *)

Lemma geocodeAddress_no_key (k : option string) (a : string) (g : Res GeocodeReply)
  (s : Store) :
  key_missing k = true -> geocodeAddress k a g s = (Ok None, s).
Proof.
  unfold key_missing, geocodeAddress. destruct k as [k|]; [|reflexivity].
  intros H. apply negb_true_iff in H. now rewrite H.
Qed.

(** X12. The enrichment of the map [App] never changes coordinates when
    there is no Google Maps key, nor when the research answer's address is
    empty or [Not Found] (or the research call fails): the geocoder is not
    consulted and [lat]/[lng] stay as they were. *)
Theorem enrichment_keeps_coords (key : option string) (b : Business) (ans : EnrichAnswers)
  (s : Store) :
  key_missing key = true \/
  (forall d, research_answer ans = Ok d -> r_address d = "" \/ r_address d = "Not Found") ->
  Forall2 (fun x x' => x'.(lat) = x.(lat) /\ x'.(lng) = x.(lng))
    s (snd (processResearchAndGeocoding key b ans s)).
Proof.
  intros H.
  destruct (research_answer ans) as [d|e] eqn:R.
  - assert (Hc : snd (processResearchAndGeocoding key b ans s) =
                 update_by_id b.(id) (fun x => merge_research x d None) s).
    { unfold processResearchAndGeocoding, try_catch, bind. rewrite R, researchBusiness_ok.
      destruct (JS.truthy (r_address d) && negb (String.eqb (r_address d) "Not Found")) eqn:A.
      - destruct H as [Hk|Ha].
        + rewrite geocodeAddress_no_key by exact Hk. reflexivity.
        + destruct (Ha d eq_refl) as [E|E]; rewrite E in A; discriminate A.
      - reflexivity. }
    rewrite Hc. apply Forall2_update_by_id; intros; split; reflexivity.
  - rewrite (process_failure key b ans e s R).
    apply Forall2_update_by_id; intros; split; reflexivity.
Qed.

Lemma enrichment_keeps_coords_witness :
  (key_missing None = true \/
   (forall d, research_answer (mkEnrichAnswers
      (Ok (mkResearched "Acme Cafe LLC" "Ann Lee" "1 Main St" "555-1234" "ann@acme.test" ""))
      (Ok (mkGeocodeReply "OK" [(30, -97)%Z]))) = Ok d ->
      r_address d = "" \/ r_address d = "Not Found")) /\
  Forall2 (fun x x' => x'.(lat) = x.(lat) /\ x'.(lng) = x.(lng))
    [sample_business]
    (snd (processResearchAndGeocoding None sample_business
      (mkEnrichAnswers
        (Ok (mkResearched "Acme Cafe LLC" "Ann Lee" "1 Main St" "555-1234" "ann@acme.test" ""))
        (Ok (mkGeocodeReply "OK" [(30, -97)%Z])))
      [sample_business])).
Proof.
  split; [left; reflexivity|].
  apply (enrichment_keeps_coords None sample_business
    (mkEnrichAnswers
      (Ok (mkResearched "Acme Cafe LLC" "Ann Lee" "1 Main St" "555-1234" "ann@acme.test" ""))
      (Ok (mkGeocodeReply "OK" [(30, -97)%Z])))
    [sample_business]).
  left. reflexivity.
Defined.

(* ------------------------------------------------------------------ *)
(** ** What the discovery stream admits *)

(** Every discovery of a line has a non-empty trimmed name and a trimmed
    website starting with [http]. *)
Lemma parse_line_valid (line : string) (d : BusinessDiscovery) :
  In d (parse_line line) ->
  JS.truthy d.(d_name) = true /\ String.prefix "http" d.(d_website) = true /\
  JS.trim d.(d_name) = d.(d_name) /\ JS.trim d.(d_website) = d.(d_website).
Proof.
  unfold parse_line.
  destruct (JS.includes pipe line); [|intros []].
  destruct (2 <=? length (JS.split pipe line))%nat; [|intros []].
  destruct (JS.split pipe line) as [|p0 [|p1 ps]]; try (intros []).
  destruct (JS.truthy (JS.trim p0) && JS.truthy (JS.trim p1) &&
            JS.startsWith "http" (JS.trim p1)) eqn:C; [|intros []].
  intros [<-|[]]. simpl.
  apply andb_true_iff in C as [C S]. apply andb_true_iff in C as [N _].
  repeat split; [exact N | exact S | apply trim_idem | apply trim_idem].
Qed.

Lemma stream_discoveries_valid (resp : StreamResponse) (d : BusinessDiscovery) :
  In d (if resp.(resp_fails) then fst (stream_chunks resp.(resp_chunks) EmptyString)
        else stream_emits resp.(resp_chunks)) ->
  JS.truthy d.(d_name) = true /\ String.prefix "http" d.(d_website) = true /\
  JS.trim d.(d_name) = d.(d_name) /\ JS.trim d.(d_website) = d.(d_website).
Proof.
  assert (Hc : forall cs, In d (fst (stream_chunks cs EmptyString)) ->
            exists l, In d (parse_line l)).
  { intros cs. rewrite stream_chunks_spec by reflexivity. simpl.
    intros Hin. apply in_flat_map in Hin as [l [_ Hl]]. eauto. }
  intros Hin. destruct (resp_fails resp).
  - destruct (Hc _ Hin) as [l Hl]. now apply parse_line_valid with l.
  - unfold stream_emits in Hin.
    pose proof (Hc (resp_chunks resp)) as Hc'.
    destruct (stream_chunks (resp_chunks resp) EmptyString) as [ds buf].
    apply in_app_iff in Hin as [Hin|Hin].
    + destruct (Hc' Hin) as [l Hl]. now apply parse_line_valid with l.
    + now apply parse_line_valid with (JS.trim buf).
Qed.

Lemma admit_all_added (location businessType today : string) (clock : nat -> N)
  (ds : list BusinessDiscovery) (st : DiscoveryState) :
  exists added,
    (admit_all location businessType today clock ds st).(ds_store) = st.(ds_store) ++ added /\
    Forall (fun b => exists d, In d ds /\ b.(discoveryName) = d.(d_name) /\
                               b.(discoveryWebsite) = d.(d_website)) added.
Proof.
  unfold admit_all. revert st. induction ds as [|d ds IH]; intros st; simpl.
  - exists []. split; [now rewrite app_nil_r | constructor].
  - destruct (IH (on_discovery_step location businessType today clock d st))
      as [a [Ha Hf]].
    rewrite Ha. unfold on_discovery_step, onDiscovery.
    assert (Hf' : Forall (fun b => exists d', In d' (d :: ds) /\
                    b.(discoveryName) = d'.(d_name) /\
                    b.(discoveryWebsite) = d'.(d_website)) a).
    { eapply Forall_impl; [|exact Hf]. intros b [d' [Hd' E]].
      exists d'. split; [now right | exact E]. }
    destruct (_ || _); simpl.
    + exists a. split; [reflexivity | exact Hf'].
    + eexists. split; [rewrite <- app_assoc; reflexivity|].
      constructor; [|exact Hf']. exists d. split; [now left | split; reflexivity].
Qed.

(** X13. Whatever the discovery stream delivers, and whether or not it
    fails, the map [App]'s search only appends records, and each appended
    record has a non-empty name and a website starting with [http], both
    free of surrounding white space. *)
Theorem handleSearch_added_valid (location businessType today : string)
  (clock : nat -> N) (resp : StreamResponse) (st : AppState) :
  exists added,
    (handleSearch location businessType today clock resp st).(businesses) =
      st.(businesses) ++ added /\
    Forall (fun b => JS.truthy b.(discoveryName) = true /\
                     String.prefix "http" b.(discoveryWebsite) = true /\
                     JS.trim b.(discoveryName) = b.(discoveryName) /\
                     JS.trim b.(discoveryWebsite) = b.(discoveryWebsite)) added.
Proof.
  set (ds := if resp.(resp_fails) then fst (stream_chunks resp.(resp_chunks) EmptyString)
             else stream_emits resp.(resp_chunks)).
  destruct (admit_all_added location businessType today clock ds
              (mkDiscoveryState 0 [] st.(businesses))) as [a [Ha Hf]].
  assert (Hst : (handleSearch location businessType today clock resp st).(businesses) =
                (admit_all location businessType today clock ds
                   (mkDiscoveryState 0 [] st.(businesses))).(ds_store)).
  { unfold handleSearch, findBusinessesStream, ds, admit_all.
    destruct (resp_fails resp); reflexivity. }
  exists a. rewrite Hst, Ha. split; [reflexivity|].
  eapply Forall_impl; [|exact Hf]. intros b [d [Hd [En Ew]]].
  rewrite En, Ew. exact (stream_discoveries_valid resp d Hd).
Qed.

(* ------------------------------------------------------------------ *)
(** ** Marker synchronisation *)

Lemma map_get_set (k k' : string) (v : Marker) (m : MarkerMap) :
  map_get k (map_set k' v m) = if String.eqb k' k then Some v else map_get k m.
Proof.
  unfold map_get. induction m as [|[k1 v1] r IH]; simpl.
  - destruct (String.eqb k' k); reflexivity.
  - destruct (String.eqb_spec k1 k') as [->|N1]; simpl.
    + destruct (String.eqb k' k); reflexivity.
    + destruct (String.eqb_spec k1 k) as [->|N2]; simpl.
      * destruct (String.eqb_spec k' k) as [->|N3]; [contradiction | reflexivity].
      * exact IH.
Qed.

Lemma map_has_get (k : string) (m : MarkerMap) :
  map_has k m = match map_get k m with Some _ => true | None => false end.
Proof.
  unfold map_has, map_get. induction m as [|[k1 v1] r IH]; simpl; [reflexivity|].
  destruct (String.eqb k1 k); [reflexivity | exact IH].
Qed.

Lemma map_get_delete (k k' : string) (m : MarkerMap) :
  map_get k (map_delete k' m) = if String.eqb k' k then None else map_get k m.
Proof.
  unfold map_get, map_delete. induction m as [|[k1 v1] r IH]; simpl.
  - destruct (String.eqb k' k); reflexivity.
  - destruct (String.eqb_spec k1 k') as [->|N1]; simpl.
    + rewrite IH. destruct (String.eqb k' k); reflexivity.
    + destruct (String.eqb_spec k1 k) as [->|N2]; simpl.
      * destruct (String.eqb_spec k' k) as [->|N3]; [contradiction | reflexivity].
      * exact IH.
Qed.

Lemma map_get_key (k : string) (m : MarkerMap) :
  map_get k m <> None -> In k (map fst m).
Proof.
  unfold map_get. induction m as [|[k1 v1] r IH]; simpl; [contradiction|].
  destruct (String.eqb_spec k1 k) as [->|N]; [now left|].
  intros H. right. now apply IH.
Qed.

Lemma delete_all_spec (k : string) (ks : list string) (m : MarkerMap) :
  map_get k (fold_left (fun m k' => map_delete k' m) ks m) =
    if in_dec String.string_dec k ks then None else map_get k m.
Proof.
  revert m. induction ks as [|k' ks IH]; intros m; cbn [fold_left]; [reflexivity|].
  rewrite IH, map_get_delete.
  destruct (in_dec String.string_dec k (k' :: ks)) as [H'|H'];
    destruct (in_dec String.string_dec k ks) as [H|H]; try reflexivity.
  - destruct H' as [E|E]; [subst; now rewrite String.eqb_refl | contradiction].
  - exfalso. apply H'. now right.
  - destruct (String.eqb_spec k' k) as [E|E]; [exfalso; apply H'; now left | reflexivity].
Qed.

(** The loop over the businesses with coordinates: the ids it leaves in
    [currentMarkerIds] and the markers it leaves in the [Map]. *)
Lemma sync_fold_spec (k : string) (L : list (Business * Coords))
  (cur : list string) (m : MarkerMap) :
  let r := fold_left sync_step L (cur, m) in
  (In k (fst r) <-> In k cur /\ find (fun bp => String.eqb (fst bp).(id) k) L = None) /\
  map_get k (snd r) =
    match find (fun bp => String.eqb (fst bp).(id) k) L with
    | None => map_get k m
    | Some (b, pos) =>
        match map_get k m with
        | Some mk => Some mk
        | None => Some (mkMarker pos (or_else b.(companyName) b.(discoveryName)))
        end
    end.
Proof.
  cbv zeta. revert cur m. induction L as [|[b pos] L IH]; intros cur m; simpl.
  - split; [tauto | reflexivity].
  - set (cur' := set_delete (id b) cur).
    assert (Hcur : forall x, In x cur' <-> In x cur /\ x <> id b).
    { intros x. unfold cur', set_delete. rewrite filter_In.
      split; intros [H1 H2]; split; auto.
      - intros E. subst. now rewrite String.eqb_refl in H2.
      - apply negb_true_iff, String.eqb_neq. intros E. now apply H2. }
    destruct (map_has (id b) m) eqn:Hh.
    + destruct (IH cur' m) as [Hi Hg]. split.
      * rewrite Hi, Hcur. destruct (String.eqb_spec (id b) k) as [->|N].
        -- split; [intros [[_ N] _]; exfalso; now apply N | intros [_ D]; discriminate D].
        -- split; [intros [[H1 H2] H3]; split; assumption|].
           intros [H1 H3]. split; [split; [exact H1 | intros E; apply N; now symmetry] | exact H3].
      * rewrite Hg. destruct (String.eqb_spec (id b) k) as [<-|N]; [|reflexivity].
        rewrite map_has_get in Hh. destruct (map_get (id b) m) as [mk|]; [|discriminate].
        destruct (find _ L) as [[b' pos']|]; reflexivity.
    + destruct (IH cur' (map_set (id b) (mkMarker pos (or_else (companyName b)
                                                          (discoveryName b))) m))
        as [Hi Hg]. split.
      * rewrite Hi, Hcur. destruct (String.eqb_spec (id b) k) as [->|N].
        -- split; [intros [[_ N] _]; exfalso; now apply N | intros [_ D]; discriminate D].
        -- split; [intros [[H1 H2] H3]; split; assumption|].
           intros [H1 H3]. split; [split; [exact H1 | intros E; apply N; now symmetry] | exact H3].
      * rewrite Hg, map_get_set. destruct (String.eqb_spec (id b) k) as [<-|N].
        -- rewrite map_has_get in Hh. destruct (map_get (id b) m); [discriminate|].
           destruct (find _ L) as [[b' pos']|]; reflexivity.
        -- reflexivity.
Qed.

(** X14. After the marker sync of [BusinessMap] and [MapSearchForm], the
    [Map] has a marker exactly for the ids of the businesses with both
    coordinates; a marker that existed for such an id is kept as it was
    (never moved or re-titled, even if the coordinates changed); a new one
    is placed at the first such business of the id, titled with its
    company name or, if that is empty, its discovery name. *)
Theorem sync_markers_spec (businesses : Store) (markers : MarkerMap) (k : string) :
  map_get k (sync_markers true businesses markers) =
    match find (fun bp => String.eqb (fst bp).(id) k) (with_coords businesses) with
    | None => None
    | Some (b, pos) =>
        match map_get k markers with
        | Some mk => Some mk
        | None => Some (mkMarker pos (or_else b.(companyName) b.(discoveryName)))
        end
    end.
Proof.
  unfold sync_markers. simpl negb. cbv iota.
  destruct (sync_fold_spec k (with_coords businesses) (map fst markers) markers) as [Hi Hg].
  destruct (fold_left sync_step (with_coords businesses) (map fst markers, markers))
    as [stale markers'] eqn:F. simpl in Hi, Hg.
  rewrite delete_all_spec.
  destruct (in_dec String.string_dec k stale) as [Hs|Hs].
  - apply Hi in Hs as [_ ->]. reflexivity.
  - rewrite Hg. destruct (find _ (with_coords businesses)) as [[b pos]|] eqn:Fd;
      [reflexivity|].
    destruct (map_get k markers) eqn:G; [|reflexivity].
    exfalso. apply Hs, Hi. split; [|reflexivity].
    apply map_get_key. now rewrite G.
Qed.
